(** * ansiblelint/prerun.py: role names, module stubs and the self-collection link

    A shallow embedding of [src/ansiblelint/prerun.py] and the properties its
    specification states about it.

    Text is modelled by [string] over 8-bit characters; the class [\w] of the
    [re] module is modelled on ASCII text, where it is [[A-Za-z0-9_]]. The
    patterns of the module are compiled without [re.ASCII], so on other text
    [\w] matches more; a property that rests on a text being refused by a
    pattern is stated for ASCII text ([ascii_text]).
    Python values whose type matters ([Any] in the source) are [pyval];
    exceptions are the [Raise] outcome of [result]. Functions that touch the
    process (file system, log, exit) run in the monad [M] over a [world],
    which also records the changes made to the file system.

    The configuration object, the two constants and the YAML loader that the
    module imports are inputs ([Env]). *)

From Stdlib Require Import Ascii String ZArith DecimalString.
From stdpp Require Import base option list gmap strings.

Local Open Scope Z_scope.
Local Open Scope nat_scope.

(** ** Characters and strings *)

Definition newline : ascii := "010"%char.
Definition dot : ascii := "."%char.
Definition slash : ascii := "/"%char.
Definition backslash : ascii := "092"%char.
Definition nul : ascii := "000"%char.

Definition in_range (lo hi c : ascii) : bool :=
  (N_of_ascii lo <=? N_of_ascii c)%N && (N_of_ascii c <=? N_of_ascii hi)%N.

(** [\w] on an ASCII character. For a character outside ASCII the answer
    of [re] depends on the Unicode tables and is not modelled: there
    [is_word] says no, and nothing is concluded from that. *)
Definition is_word (c : ascii) : bool :=
  in_range "a" "z" c || in_range "A" "Z" c || in_range "0" "9" c
  || Ascii.eqb c "_".

Fixpoint all_chars (p : ascii → bool) (s : string) : bool :=
  match s with
  | EmptyString => true
  | String c s' => p c && all_chars p s'
  end.

(** [free c s]: the character [c] does not occur in [s]. *)
Definition free (c : ascii) (s : string) : bool :=
  all_chars (λ x, negb (Ascii.eqb x c)) s.

(** A character of ASCII, a text of ASCII characters. *)
Definition is_ascii (c : ascii) : bool := (N_of_ascii c <? 128)%N.

Definition ascii_text (s : string) : bool := all_chars is_ascii s.

Definition nonempty (s : string) : bool :=
  match s with EmptyString => false | String _ _ => true end.

(** [s.split(sep)] for a one-character separator: never the empty list. *)
Fixpoint split (sep : ascii) (s : string) : list string :=
  match s with
  | EmptyString => [EmptyString]
  | String c s' =>
      if Ascii.eqb c sep then EmptyString :: split sep s'
      else match split sep s' with
           | p :: ps => String c p :: ps
           | [] => [String c EmptyString]
           end
  end.

(** [sep.join(l)]. *)
Fixpoint join (sep : string) (l : list string) : string :=
  match l with
  | [] => EmptyString
  | [x] => x
  | x :: xs => x +:+ sep +:+ join sep xs
  end.

(** The slice [l[2:-1]]. *)
Definition slice_2_m1 {A} (l : list A) : list A := removelast (skipn 2 l).

Fixpoint ends_with_newline (s : string) : bool :=
  match s with
  | EmptyString => false
  | String c s' =>
      match s' with
      | EmptyString => Ascii.eqb c newline
      | String _ _ => ends_with_newline s'
      end
  end.

(** No two dots next to each other. *)
Fixpoint no_adjacent_dots (s : string) : bool :=
  match s with
  | EmptyString => true
  | String c s' =>
      match s' with
      | String d _ => negb (Ascii.eqb c dot && Ascii.eqb d dot)
      | EmptyString => true
      end && no_adjacent_dots s'
  end.

(** ** The fragment of [re] the module uses *)

Module Re.

(** An item of a character set: a literal character or [\w]. *)
Inductive citem := CChar (c : ascii) | CWord.

Definition in_item (i : citem) (c : ascii) : bool :=
  match i with
  | CChar d => Ascii.eqb d c
  | CWord => is_word c
  end.

Definition in_class (cs : list citem) (c : ascii) : bool :=
  existsb (λ i, in_item i c) cs.

(** [Bol] is [^], [Eol] is [$], [Str] a run of literal (or escaped)
    characters, [Plus cs] is [[cs]+] (greedy), [Alt] is [|] (the left
    alternative is tried first). A capturing group only groups. *)
Inductive regex :=
| Bol
| Eol
| Str (s : string)
| Plus (cs : list citem)
| Seq (r1 r2 : regex)
| Alt (r1 r2 : regex).

Fixpoint strip_prefix (p s : string) : option string :=
  match p, s with
  | EmptyString, _ => Some s
  | String a p', String b s' =>
      if Ascii.eqb a b then strip_prefix p' s' else None
  | String _ _, EmptyString => None
  end.

(** [$] without MULTILINE: at the end of the text, and also just before a
    newline that ends the text. *)
Definition at_end (s : string) : bool :=
  match s with
  | EmptyString => true
  | String c EmptyString => Ascii.eqb c newline
  | String _ (String _ _) => false
  end.

(** After one character of [cs+]: take further characters first, give
    them back one at a time when the rest of the pattern fails. *)
Fixpoint more (cs : list citem) (k : string → option string) (s : string)
  : option string :=
  match s with
  | String c s' =>
      if in_class cs c then
        match more cs k s' with
        | Some r => Some r
        | None => k s
        end
      else k s
  | EmptyString => k s
  end.

(** The backtracking matcher: [run n r s k] matches [r] at the head of
    [s], where the whole subject has [n] characters, and hands what is
    left to the continuation; the first success in the engine's order of
    preference is the result. *)
Fixpoint run (n : nat) (r : regex) (s : string)
    (k : string → option string) : option string :=
  match r with
  | Bol => if Nat.eqb (String.length s) n then k s else None
  | Eol => if at_end s then k s else None
  | Str p =>
      match strip_prefix p s with
      | Some s' => k s'
      | None => None
      end
  | Plus cs =>
      match s with
      | String c s' => if in_class cs c then more cs k s' else None
      | EmptyString => None
      end
  | Seq r1 r2 => run n r1 s (λ s1, run n r2 s1 k)
  | Alt r1 r2 =>
      match run n r1 s k with
      | Some x => Some x
      | None => run n r2 s k
      end
  end.

(** [re.match(r, s)]: a match at the start of [s]. The result is what
    follows the match ([None] for no match). *)
Definition re_match (r : regex) (s : string) : option string :=
  run (String.length s) r s Some.

(** [re.sub(r, repl, s)] for a replacement without a backslash, which
    [re.sub] inserts as it is (the module's replacement is the empty text;
    a backslash in a replacement starts an escape or a group reference,
    which is not modelled): leftmost matches, one after the other. [skip]
    counts the characters of the current match still to be dropped. The
    patterns of this module match no empty text; for an empty match the
    character is kept after the replacement. *)
Fixpoint sub_from (n : nat) (r : regex) (repl : string) (skip : nat)
    (s : string) : string :=
  match s with
  | EmptyString =>
      match skip, run n r EmptyString Some with
      | O, Some _ => repl
      | _, _ => EmptyString
      end
  | String c s' =>
      match skip with
      | S j => sub_from n r repl j s'
      | O =>
          match run n r s Some with
          | Some rest =>
              match String.length s - String.length rest with
              | O => repl +:+ String c (sub_from n r repl 0 s')
              | S j => repl +:+ sub_from n r repl j s'
              end
          | None => String c (sub_from n r repl 0 s')
          end
      end
  end.

Definition re_sub (r : regex) (repl s : string) : string :=
  sub_from (String.length s) r repl 0 s.

(** What [run] decides, as a relation: [matches n r s s'] when [r] can
    match at the head of [s] and leave [s']. *)
Inductive plus_rel (cs : list citem) : string → string → Prop :=
| plus_one c s : in_class cs c = true → plus_rel cs (String c s) s
| plus_more c s s' :
    in_class cs c = true → plus_rel cs s s' → plus_rel cs (String c s) s'.

Inductive matches (n : nat) : regex → string → string → Prop :=
| m_bol s : String.length s = n → matches n Bol s s
| m_eol s : at_end s = true → matches n Eol s s
| m_str p s s' : strip_prefix p s = Some s' → matches n (Str p) s s'
| m_plus cs s s' : plus_rel cs s s' → matches n (Plus cs) s s'
| m_seq r1 r2 s s1 s2 :
    matches n r1 s s1 → matches n r2 s1 s2 → matches n (Seq r1 r2) s s2
| m_alt_l r1 r2 s s' : matches n r1 s s' → matches n (Alt r1 r2) s s'
| m_alt_r r1 r2 s s' : matches n r2 s s' → matches n (Alt r1 r2) s s'.

End Re.

Import Re.

(** [\w+] and [[\.\w]+]. *)
Definition word1 : regex := Plus [CWord].
Definition dotword1 : regex := Plus [CChar dot; CWord].

(** [r"^\w+ \w+"] *)
Definition author_name_re : regex :=
  Seq Bol (Seq word1 (Seq (Str " ") word1)).

(** [r'(ansible-|ansible-role-)'] *)
Definition role_prefix_re : regex :=
  Alt (Str "ansible-") (Str "ansible-role-").

(** [r"^(\w+|\w+\.\w+\.[\.\w]+)$"] *)
Definition module_name_re : regex :=
  Seq Bol
    (Seq (Alt word1
            (Seq word1 (Seq (Str ".") (Seq word1 (Seq (Str ".") dotword1)))))
         Eol).

(** [r"\w+\.\w+\.\w+$"] *)
Definition role_name_re : regex :=
  Seq word1 (Seq (Str ".") (Seq word1 (Seq (Str ".") (Seq word1 Eol)))).


(** ** Python values, exceptions *)

Inductive errno :=
| EEXIST     (* FileExistsError *)
| ENOENT     (* FileNotFoundError *)
| ENOTDIR    (* NotADirectoryError *)
| EISDIR     (* IsADirectoryError *)
| EINVAL
| ELOOP.

Inductive exn :=
| TypeError
| AttributeError
| ValueError
| IndexError
| KeyError (key : string)
| RuntimeError (msg : string)
| OSError (e : errno)
| SystemExit (rc : Z).

Inductive result (A : Type) :=
| Ok (a : A)
| Raise (e : exn).
Arguments Ok {A} a.
Arguments Raise {A} e.

Definition rbind {A B} (r : result A) (f : A → result B) : result B :=
  match r with
  | Ok a => f a
  | Raise e => Raise e
  end.

Declare Scope py_scope.
Delimit Scope py_scope with py.
Notation "'let?' x := e 'in' k" := (rbind e (λ x, k))
  (at level 10, x name, e at level 100, k at level 200) : py_scope.

(** A value of type [Any] read from YAML. [PyObj len text] stands for any
    other object (a list, a mapping, bytes, a float): [len] is what [len()]
    gives when the object has a length, [text] is its [str()]. *)
Inductive pyval :=
| PyStr (s : string)
| PyNone
| PyInt (z : Z)
| PyObj (len : option nat) (text : string).

Definition is_str (v : pyval) : bool :=
  match v with PyStr _ => true | _ => false end.

(** [len(v)] *)
Definition py_len (v : pyval) : result nat :=
  match v with
  | PyStr s => Ok (String.length s)
  | PyObj (Some n) _ => Ok n
  | PyNone | PyInt _ | PyObj None _ => Raise TypeError
  end.

(** [str(v)], which is also how an f-string and [str.format] show [v]. *)
Definition py_str (v : pyval) : string :=
  match v with
  | PyStr s => s
  | PyNone => "None"
  | PyInt z => NilZero.string_of_int (Z.to_int z)
  | PyObj _ text => text
  end.

(** Truth value: [not v] is [negb (py_truthy v)]. *)
Definition py_truthy (v : pyval) : bool :=
  match v with
  | PyStr s => nonempty s
  | PyNone => false
  | PyInt z => negb (Z.eqb z 0)
  | PyObj (Some O) _ => false
  | PyObj _ _ => true
  end.

(** [d.get(key, default)] *)
Definition dict_get (d : gmap string pyval) (key : string) (dflt : pyval)
  : pyval :=
  default dflt (d !! key).

(** [re.match(r, v)] on a value: only text can be searched. *)
Definition re_match_val (r : regex) (v : pyval) : result (option string) :=
  match v with
  | PyStr s => Ok (re_match r s)
  | _ => Raise TypeError
  end.

(** A format template: literal text and [{field}] replacement fields. *)
Inductive piece :=
| Text (s : string)
| Field (name : string).

Fixpoint assoc (key : string) (kw : list (string * pyval)) : option pyval :=
  match kw with
  | [] => None
  | (k, v) :: kw' => if String.eqb k key then Some v else assoc key kw'
  end.

(** [template.format] with keyword arguments [kw]. *)
Fixpoint py_format (t : list piece) (kw : list (string * pyval))
  : result string :=
  match t with
  | [] => Ok EmptyString
  | Text s :: t' => rbind (py_format t' kw) (λ r, Ok (s +:+ r))
  | Field f :: t' =>
      match assoc f kw with
      | Some v => rbind (py_format t' kw) (λ r, Ok (py_str v +:+ r))
      | None => Raise (KeyError f)
      end
  end.

(** ** pathlib *)

Module Path.

(** A pure POSIX path: its root (empty, one slash or two slashes) and its parts.
    Building one from text drops empty and single-dot components and keeps
    double-dot ones. *)
Record t := mk { root : string; parts : list string }.

Definition root_of (s : string) : string :=
  match s with
  | String a (String b (String c _)) =>
      if Ascii.eqb a slash then
        if Ascii.eqb b slash then
          if Ascii.eqb c slash then "/" else "//"
        else "/"
      else EmptyString
  | String a (String b EmptyString) =>
      if Ascii.eqb a slash then
        if Ascii.eqb b slash then "//" else "/"
      else EmptyString
  | String a EmptyString => if Ascii.eqb a slash then "/" else EmptyString
  | EmptyString => EmptyString
  end.

Definition keep (c : string) : bool :=
  nonempty c && negb (String.eqb c ".").

(** [pathlib.Path(s)] *)
Definition of_string (s : string) : t :=
  mk (root_of s) (List.filter keep (split slash s)).

(** [str(p)] *)
Definition to_string (p : t) : string :=
  match root p, parts p with
  | EmptyString, [] => "."
  | r, ps => r +:+ join "/" ps
  end.

(** [p.name] *)
Definition name (p : t) : string := List.last (parts p) EmptyString.

(** [p.parent] *)
Definition parent (p : t) : t := mk (root p) (removelast (parts p)).

Definition is_absolute (p : t) : bool := nonempty (root p).

(** [p / q]: an absolute right operand replaces the left one. *)
Definition div (p q : t) : t :=
  if is_absolute q then q else mk (root p) (parts p ++ parts q).

(** [p.absolute()] in a process whose working directory is [cwd]. *)
Definition absolute (cwd : string) (p : t) : t :=
  if is_absolute p then p else div (of_string cwd) p.

(** Equality of two paths. *)
Definition eqb (p q : t) : bool := String.eqb (to_string p) (to_string q).

(** The path itself and its ancestors below the root, outermost first. *)
Definition chain (p : t) : list t :=
  List.map (λ k, mk (root p) (firstn (S k) (parts p)))
           (seq 0 (List.length (parts p))).

End Path.

(** The operands of a comparison whose types matter: [str] and [Path]
    objects. A [str] and a [Path] are never equal: [str.__eq__] and
    [PurePath.__eq__] both answer [NotImplemented] for the other type, and
    the comparison falls back to identity. *)
Inductive pyobj :=
| OStr (s : string)
| OPath (p : Path.t).

Definition py_eq (a b : pyobj) : bool :=
  match a, b with
  | OStr x, OStr y => String.eqb x y
  | OPath p, OPath q => Path.eqb p q
  | _, _ => false
  end.

(** [a != b] *)
Definition py_ne (a b : pyobj) : bool := negb (py_eq a b).

(** ** Role names *)

Local Open Scope py_scope.

(** [_get_galaxy_role_ns]: role namespace from meta/main.yml. *)
Definition _get_galaxy_role_ns (galaxy_infos : gmap string pyval)
  : result string :=
  let role_namespace := dict_get galaxy_infos "namespace" (PyStr EmptyString) in
  let? n := py_len role_namespace in
  let role_namespace :=
    if Nat.eqb n 0 then dict_get galaxy_infos "author" (PyStr EmptyString)
    else role_namespace in
  let? m := re_match_val author_name_re role_namespace in
  let role_namespace :=
    match m with
    | Some _ => PyStr EmptyString
    | None => PyStr (py_str role_namespace +:+ ".")
    end in
  if negb (is_str role_namespace) then
    Raise (RuntimeError
             ("Role namespace must be string, not " +:+ py_str role_namespace))
  else Ok (py_str role_namespace).

(** [_get_galaxy_role_name] *)
Definition _get_galaxy_role_name (galaxy_infos : gmap string pyval) : pyval :=
  dict_get galaxy_infos "role_name" (PyStr EmptyString).

(** [_get_role_fqrn], run in a process whose working directory is [cwd]. *)
Definition _get_role_fqrn (cwd : string) (galaxy_infos : gmap string pyval)
  : result string :=
  let? role_namespace := _get_galaxy_role_ns galaxy_infos in
  let role_name := _get_galaxy_role_name galaxy_infos in
  let? n := py_len role_name in
  let role_name :=
    if Nat.eqb n 0 then
      let role_name :=
        Path.name (Path.absolute cwd (Path.of_string ".")) in
      PyStr (re_sub role_prefix_re EmptyString role_name)
    else role_name in
  Ok (role_namespace +:+ py_str role_name).


(** ** The process: file system, log, exit *)

(** The file system is a finite map from the text of an absolute path to
    what is there. A path is looked up by its text: a symbolic link met as
    the last component is followed, links in directories on the way and
    double-dot components are not worked out. The root is always a
    directory. *)
Inductive node :=
| Dir
| File (content : string)
| Link (target : string).

(** A change made to the file system. *)
Inductive event :=
| EvMkdir (path : string)
| EvWrite (path content : string)
| EvUnlink (path : string)
| EvSymlink (path target : string).

Record world := mkWorld {
  cwd : string;
  fs : gmap string node;
  log : list string;
  trace : list event
}.

Definition M (A : Type) : Type := world → result A * world.

Definition ret {A} (a : A) : M A := λ w, (Ok a, w).
Definition raise {A} (e : exn) : M A := λ w, (Raise e, w).
Definition bind {A B} (m : M A) (f : A → M B) : M B :=
  λ w, match m w with
       | (Ok a, w') => f a w'
       | (Raise e, w') => (Raise e, w')
       end.
Definition lift {A} (r : result A) : M A := λ w, (r, w).

Notation "'let!' x := e 'in' k" := (bind e (λ x, k))
  (at level 10, x name, e at level 100, k at level 200) : py_scope.

Fixpoint for_each {A} (f : A → M unit) (l : list A) : M unit :=
  match l with
  | [] => ret tt
  | x :: l' => let! _ := f x in for_each f l'
  end.

Definition change (f : gmap string node) (e : event) (w : world) : world :=
  mkWorld (cwd w) f (log w) (trace w ++ [e]).

(** The kernel gives up after this many links in one lookup. *)
Definition MAXSYMLINKS : nat := 40.

Definition lookup_path (f : gmap string node) (p : Path.t) : option node :=
  match Path.parts p with
  | [] => Some Dir
  | _ => f !! Path.to_string p
  end.

(** Follow links at [p]: where the lookup ends and what is there. *)
Fixpoint follow (fuel : nat) (f : gmap string node) (p : Path.t)
  : result (Path.t * option node) :=
  match lookup_path f p with
  | Some (Link t) =>
      match fuel with
      | O => Raise (OSError ELOOP)
      | S fuel' => follow fuel' f (Path.div (Path.parent p) (Path.of_string t))
      end
  | o => Ok (p, o)
  end.

Definition stat (f : gmap string node) (p : Path.t)
  : result (Path.t * option node) :=
  follow MAXSYMLINKS f p.

Definition here (w : world) (p : Path.t) : Path.t := Path.absolute (cwd w) p.

(** [p.exists()], [os.path.exists(p)]: links are followed, so a link whose
    target is missing does not exist. *)
Definition path_exists (p : Path.t) : M bool :=
  λ w, (Ok match stat (fs w) (here w p) with
           | Ok (_, Some _) => true
           | _ => false
           end, w).

(** A path with a NUL character cannot be given to the system: the calls
    that create something raise [ValueError] for it. *)
Definition has_nul (p : Path.t) : bool := negb (free nul (Path.to_string p)).

Fixpoint makedirs_chain (ps : list Path.t) : M unit :=
  λ w,
  match ps with
  | [] => (Ok tt, w)
  | p :: ps' =>
      if has_nul p then (Raise ValueError, w) else
      match stat (fs w) p with
      | Raise e => (Raise e, w)
      | Ok (_, Some Dir) => makedirs_chain ps' w
      | Ok (_, Some _) =>
          (Raise (OSError match ps' with [] => EEXIST | _ => ENOTDIR end), w)
      | Ok (_, None) =>
          match lookup_path (fs w) p with
          | None =>
              let k := Path.to_string p in
              makedirs_chain ps' (change (<[k := Dir]> (fs w)) (EvMkdir k) w)
          | Some _ =>
              (Raise (OSError match ps' with [] => EEXIST | _ => ENOENT end),
               w)
          end
      end
  end.

(** [os.makedirs(p, exist_ok=True)]: the directories are made from the
    outermost on, so those above a component with a NUL are made before the
    call raises. *)
Definition makedirs (p : Path.t) : M unit :=
  λ w, makedirs_chain (Path.chain (here w p)) w.

(** [p.mkdir(parents=True, exist_ok=True)]: as [os.makedirs], but the path
    itself is tried first, so a NUL in it raises before anything is made. *)
Definition path_mkdir (p : Path.t) : M unit :=
  λ w, if has_nul (here w p) then (Raise ValueError, w) else makedirs p w.

(** [with open(p, "w") as f: f.write(body)] *)
Definition write_text (p : Path.t) (body : string) : M unit :=
  λ w,
  let put q :=
    let k := Path.to_string q in
    (Ok tt, change (<[k := File body]> (fs w)) (EvWrite k body) w) in
  match stat (fs w) (here w p) with
  | Raise e => (Raise e, w)
  | Ok (_, Some Dir) => (Raise (OSError EISDIR), w)
  | Ok (q, Some _) => put q
  | Ok (q, None) =>
      match stat (fs w) (Path.parent q) with
      | Raise e => (Raise e, w)
      | Ok (_, Some Dir) => put q
      | Ok (_, Some _) => (Raise (OSError ENOTDIR), w)
      | Ok (_, None) => (Raise (OSError ENOENT), w)
      end
  end.

(** Reading a file as text. *)
Definition read_text (p : Path.t) : M string :=
  λ w,
  match stat (fs w) (here w p) with
  | Raise e => (Raise e, w)
  | Ok (_, Some (File c)) => (Ok c, w)
  | Ok (_, Some _) => (Raise (OSError EISDIR), w)
  | Ok (_, None) => (Raise (OSError ENOENT), w)
  end.

(** [os.readlink(p)]: the text stored in the link, a [str]. *)
Definition os_readlink (p : Path.t) : M string :=
  λ w,
  match lookup_path (fs w) (here w p) with
  | Some (Link t) => (Ok t, w)
  | Some _ => (Raise (OSError EINVAL), w)
  | None => (Raise (OSError ENOENT), w)
  end.

(** [p.unlink()] *)
Definition path_unlink (p : Path.t) : M unit :=
  λ w,
  let k := Path.to_string (here w p) in
  match lookup_path (fs w) (here w p) with
  | None => (Raise (OSError ENOENT), w)
  | Some Dir => (Raise (OSError EISDIR), w)
  | Some _ => (Ok tt, change (delete k (fs w)) (EvUnlink k) w)
  end.

(** [p.symlink_to(target)]: fails when anything, also a link whose target
    is missing, is at [p]. *)
Definition path_symlink_to (p target : Path.t) : M unit :=
  λ w,
  let k := Path.to_string (here w p) in
  let t := Path.to_string target in
  if has_nul (here w p) || has_nul target then (Raise ValueError, w) else
  match lookup_path (fs w) (here w p) with
  | Some _ => (Raise (OSError EEXIST), w)
  | None =>
      match stat (fs w) (Path.parent (here w p)) with
      | Raise e => (Raise e, w)
      | Ok (_, Some Dir) =>
          (Ok tt, change (<[k := Link t]> (fs w)) (EvSymlink k t) w)
      | Ok (_, Some _) => (Raise (OSError ENOTDIR), w)
      | Ok (_, None) => (Raise (OSError ENOENT), w)
      end
  end.

(** [_logger.error(msg)] *)
Definition logger_error (msg : string) : M unit :=
  λ w, (Ok tt, mkWorld (cwd w) (fs w) (log w ++ [msg]) (trace w)).

(** [sys.exit(rc)] *)
Definition sys_exit {A} (rc : Z) : M A := raise (SystemExit rc).

(** ** Configuration and collaborators *)

(** [ansiblelint.config.options], the fields this module reads. *)
Record Options := mkOptions {
  cache_dir : string;
  project_dir : string;
  mock_roles : list string;
  mock_modules : list string
}.

(** A loaded YAML document: nothing, a mapping, or something else (whose
    truth value is then all that matters). *)
Inductive yamldoc :=
| YNull
| YMap (m : gmap string pyval)
| YOther (truthy : bool).

Definition yaml_truthy (y : yamldoc) : bool :=
  match y with
  | YNull => false
  | YMap m => negb (bool_decide (m = ∅))
  | YOther b => b
  end.

(** [y.get(key, default)] *)
Definition yaml_get (y : yamldoc) (key : string) (dflt : pyval)
  : result pyval :=
  match y with
  | YMap m => Ok (dict_get m key dflt)
  | _ => Raise AttributeError
  end.

(** What the module imports from the rest of the package: the constants
    [INVALID_CONFIG_RC] and [ANSIBLE_MOCKED_MODULE] of
    [ansiblelint.constants] and the parser behind
    [ansiblelint.loaders.yaml_from_file]. They are inputs here. *)
Record Env := mkEnv {
  options : Options;
  INVALID_CONFIG_RC : Z;
  ANSIBLE_MOCKED_MODULE : list piece;
  yaml_parse : string → result yamldoc
}.

(** Modelled from the spec: [yaml_from_file] of [ansiblelint.loaders] is not
    in this file; it is the loader [load(path) -> mapping-or-empty], which
    reads the file at [path] and parses it. *)
Definition yaml_from_file (env : Env) (path : string) : M yamldoc :=
  let! text := read_text (Path.of_string path) in
  lift (yaml_parse env text).

(** ** Module stubs *)

(** [l[i]] and [l[-1]] *)
Definition py_index {A} (l : list A) (i : nat) : result A :=
  match nth_error l i with
  | Some x => Ok x
  | None => Raise IndexError
  end.

Definition py_index_last {A} (l : list A) : result A :=
  match List.rev l with
  | x :: _ => Ok x
  | [] => Raise IndexError
  end.

Definition opt_val (o : option string) : pyval :=
  match o with
  | Some s => PyStr s
  | None => PyNone
  end.

(** [_write_module_stub]: write module stub to disk. *)
Definition _write_module_stub (env : Env) (filename : string) (name : string)
    (namespace collection : option string) : M unit :=
  let! body :=
    lift (py_format (ANSIBLE_MOCKED_MODULE env)
            [("name", PyStr name);
             ("collection", opt_val collection);
             ("namespace", opt_val namespace)]) in
  write_text (Path.of_string filename) body.

(** The names computed by [_make_module_stub] for an accepted
    [module_name] (the [if len(parts) < 3] statement): [path],
    [module_file], [namespace] and [collection]. *)
Definition stub_target (cache : string) (module_name : string)
  : result (string * string * option string * option string) :=
  let parts := split dot module_name in
  if Nat.ltb (List.length parts) 3 then
    let path := cache +:+ "/modules" in
    let module_file := cache +:+ "/modules/" +:+ module_name +:+ ".py" in
    Ok (path, module_file, None, None)
  else
    let? namespace := py_index parts 0 in
    let? collection := py_index parts 1 in
    let path :=
      cache +:+ "/collections/ansible_collections/" +:+ namespace +:+ "/"
      +:+ collection +:+ "/plugins/modules/"
      +:+ join "/" (slice_2_m1 parts) in
    let? stem := py_index_last parts in
    let module_file := path +:+ "/" +:+ stem +:+ ".py" in
    Ok (path, module_file, Some namespace, Some collection).

(** The test of [_make_module_stub]: "a.b.c is treated a collection". *)
Definition module_name_ok (module_name : string) : bool :=
  match re_match module_name_re module_name with
  | Some _ => true
  | None => false
  end.

(** [_make_module_stub] *)
Definition _make_module_stub (env : Env) (module_name : string) : M unit :=
  if module_name_ok module_name then
    let! t := lift (stub_target (cache_dir (options env)) module_name) in
    let '(path, module_file, namespace, collection) := t in
    let! _ := makedirs (Path.of_string path) in
    _write_module_stub env module_file module_file namespace collection
  else
    let! _ :=
      logger_error ("Config error: " +:+ module_name
                    +:+ " is not a valid module name.") in
    sys_exit (INVALID_CONFIG_RC env).

(** ** Mocking *)

(** The body of the loop over [options.mock_roles]. *)
Definition mock_role (env : Env) (role_name : string) : M unit :=
  let cache := cache_dir (options env) in
  let! path :=
    match re_match role_name_re role_name with
    | Some _ =>
        match split dot role_name with
        | [namespace; collection; role_dir] =>
            ret (cache +:+ "/collections/ansible_collections/" +:+ namespace
                 +:+ "/" +:+ collection +:+ "/roles/" +:+ role_dir +:+ "/")
        | _ => raise ValueError
        end
    | None => ret (cache +:+ "/roles/" +:+ role_name)
    end in
  makedirs (Path.of_string path).

(** [p / v] for a value read from YAML. *)
Definition path_div_val (p : Path.t) (v : pyval) : result Path.t :=
  match v with
  | PyStr s => Ok (Path.div p (Path.of_string s))
  | _ => Raise TypeError
  end.

(** The last part of [_perform_mockings]: "if inside a collection repo,
    symlink it to simulate its installed state". *)
Definition link_self_collection (env : Env) : M unit :=
  let! found := path_exists (Path.of_string "galaxy.yml") in
  if negb found then ret tt else
  let! yaml := yaml_from_file env "galaxy.yml" in
  if negb (yaml_truthy yaml) then ret tt else
  let! namespace := lift (yaml_get yaml "namespace" PyNone) in
  let! collection := lift (yaml_get yaml "name" PyNone) in
  if negb (py_truthy namespace) || negb (py_truthy collection) then ret tt else
  let p :=
    Path.of_string (cache_dir (options env)
                    +:+ "/collections/ansible_collections/"
                    +:+ py_str namespace) in
  let! _ := path_mkdir p in
  let! link_path := lift (path_div_val p collection) in
  let! target :=
    (λ w, (Ok (Path.absolute (cwd w)
                 (Path.of_string (project_dir (options env)))), w)) in
  let! there := path_exists link_path in
  let! renew :=
    if negb there then ret true
    else let! old := os_readlink link_path in
         ret (py_ne (OStr old) (OPath target)) in
  if renew then
    let! there := path_exists link_path in
    let! _ := if there then path_unlink link_path else ret tt in
    path_symlink_to link_path target
  else ret tt.

(** [_perform_mockings]: mock modules and roles. *)
Definition _perform_mockings (env : Env) : M unit :=
  let! _ := for_each (mock_role env) (mock_roles (options env)) in
  let! _ := for_each (_make_module_stub env) (mock_modules (options env)) in
  link_self_collection env.

(** ** Vocabulary of the specification *)

(** A metadata value that is absent or the empty text. *)
Definition empty_or_absent (m : gmap string pyval) (key : string) : Prop :=
  m !! key = None ∨ m !! key = Some (PyStr EmptyString).

(** The process runs in a directory of that name. *)
Definition in_directory_named (cwd name : string) : Prop :=
  Path.name (Path.of_string cwd) = name.

(** The namespace value that is used: the [namespace] field, or the
    [author] field when that one has length zero. *)
Definition resolved_namespace (m : gmap string pyval) : pyval :=
  let v := dict_get m "namespace" (PyStr EmptyString) in
  match py_len v with
  | Ok O => dict_get m "author" (PyStr EmptyString)
  | _ => v
  end.

(** A word token: one or more word characters. *)
Definition word_token (w : string) : bool :=
  nonempty w && all_chars is_word w.

(** One or more characters, each a word character or a dot. *)
Definition dotted_tail (t : string) : bool :=
  nonempty t && all_chars (λ c, Ascii.eqb c dot || is_word c) t.

(** The identifiers of the specification: word tokens separated by single
    dots, one segment or at least three. *)
Definition spec_module_identifier (s : string) : bool :=
  let parts := split dot s in
  forallb word_token parts
  && (Nat.eqb (List.length parts) 1 || Nat.leb 3 (List.length parts)).

(** The identifiers the test of [_make_module_stub] lets through, up to a
    final newline: a word token, or two word tokens each followed by a dot
    and then word characters and dots in any order. *)
Definition accepted_shape (s : string) : Prop :=
  word_token s = true
  ∨ ∃ w1 w2 t,
      s = w1 +:+ "." +:+ w2 +:+ "." +:+ t
      ∧ word_token w1 = true ∧ word_token w2 = true ∧ dotted_tail t = true.

(** The file [_make_module_stub] writes for [module_name]. *)
Definition stub_file (cache module_name : string) : result string :=
  let? t := stub_target cache module_name in
  let '(_, module_file, _, _) := t in
  Ok module_file.

(** Text that starts like a full name: a word token, a space and a word
    token, then anything. *)
Definition author_shape (v : string) : Prop :=
  ∃ w1 w2 rest,
    v = w1 +:+ " " +:+ w2 +:+ rest
    ∧ word_token w1 = true ∧ word_token w2 = true.

(** [p] occurs somewhere in [s]. *)
Fixpoint occurs (p s : string) : bool :=
  match strip_prefix p s with
  | Some _ => true
  | None =>
      match s with
      | EmptyString => false
      | String _ s' => occurs p s'
      end
  end.

(** The exception is an [OSError]. *)
Definition is_OSError (e : exn) : Prop := ∃ code, e = OSError code.

(** ** A collection under development, for the examples *)

(** What [galaxy.yml] holds for the collection [acme.tools]. *)
Definition collection_yaml : yamldoc :=
  YMap {[ "namespace" := PyStr "acme"; "name" := PyStr "tools" ]}.

(** A configuration: the cache in [/cache], the project in [/work/tools],
    nothing to mock; 2 for the exit status, a short template. *)
Definition example_env : Env :=
  mkEnv (mkOptions "/cache" "/work/tools" [] []) 2%Z
        [Text "module: "; Field "name"]
        (λ _, Ok collection_yaml).

Definition example_link : string :=
  "/cache/collections/ansible_collections/acme/tools".

Definition project_files : gmap string node :=
  {[ "/cache" := Dir;
     "/work" := Dir;
     "/work/tools" := Dir;
     "/work/tools/galaxy.yml" := File "namespace: acme" ]}.

(** The project before any run. *)
Definition fresh_world : world := mkWorld "/work/tools" project_files [] [].

(** The project after a run from somewhere else, which has since been
    removed: the link is there and its target is not. *)
Definition stale_world : world :=
  mkWorld "/work/tools"
    (<[ "/cache/collections" := Dir ]>
       (<[ "/cache/collections/ansible_collections" := Dir ]>
          (<[ "/cache/collections/ansible_collections/acme" := Dir ]>
             (<[ example_link := Link "/gone/tools" ]> project_files))))
    [] [].

(** The same with the old target still there. *)
Definition moved_world : world :=
  mkWorld (cwd stale_world) (<[ "/gone/tools" := Dir ]> (fs stale_world))
    [] [].

(** * Properties *)

(** ** Role names *)

Lemma dict_get_empty_or_absent (m : gmap string pyval) key :
  empty_or_absent m key → dict_get m key (PyStr EmptyString) = PyStr EmptyString.
Proof. unfold dict_get. by intros [-> | ->]. Qed.

Lemma name_of_cwd cwd :
  Path.name (Path.absolute cwd (Path.of_string ".")) =
  Path.name (Path.of_string cwd).
Proof.
  unfold Path.absolute, Path.div, Path.name; simpl.
  by rewrite app_nil_r.
Qed.

(** C1. With no namespace, no author and no role name, in a directory
    named myrole, the code answers [.myrole]: the separator is put in
    front of the name although the namespace is empty. *)
Theorem fqrn_empty_metadata_keeps_separator (m : gmap string pyval) cwd :
  empty_or_absent m "namespace" →
  empty_or_absent m "author" →
  empty_or_absent m "role_name" →
  in_directory_named cwd "myrole" →
  _get_role_fqrn cwd m = Ok ".myrole".
Proof.
  intros Hn Ha Hr Hd.
  unfold _get_role_fqrn, _get_galaxy_role_ns, _get_galaxy_role_name.
  rewrite (dict_get_empty_or_absent _ _ Hn); simpl.
  rewrite (dict_get_empty_or_absent _ _ Ha); simpl.
  rewrite (dict_get_empty_or_absent _ _ Hr); simpl.
  rewrite name_of_cwd, Hd.
  reflexivity.
Qed.

Lemma fqrn_empty_metadata_keeps_separator_witness :
  _get_role_fqrn "/home/user/myrole" ∅ = Ok ".myrole".
Proof.
  apply fqrn_empty_metadata_keeps_separator;
    first [ by left | reflexivity ].
Defined.

(** C2. With author Jane Doe, no namespace and no role name, in a directory
    named ansible-role-web, the code answers [role-web]: the author is not
    taken for a namespace, and of the name only [ansible-] is removed,
    because that alternative of the pattern is tried first. *)
Theorem fqrn_author_name_role_prefix (m : gmap string pyval) cwd :
  m !! "author" = Some (PyStr "Jane Doe") →
  empty_or_absent m "namespace" →
  empty_or_absent m "role_name" →
  in_directory_named cwd "ansible-role-web" →
  _get_role_fqrn cwd m = Ok "role-web".
Proof.
  intros Ha Hn Hr Hd.
  unfold _get_role_fqrn, _get_galaxy_role_ns, _get_galaxy_role_name.
  rewrite (dict_get_empty_or_absent _ _ Hn); simpl.
  unfold dict_get at 1; rewrite Ha; simpl.
  rewrite (dict_get_empty_or_absent _ _ Hr); simpl.
  rewrite name_of_cwd, Hd.
  reflexivity.
Qed.

Lemma fqrn_author_name_role_prefix_witness :
  _get_role_fqrn "/srv/ansible-role-web" {[ "author" := PyStr "Jane Doe" ]}
  = Ok "role-web".
Proof.
  apply fqrn_author_name_role_prefix;
    first [ reflexivity | by left ].
Defined.

(** The error of [_get_galaxy_role_ns] that names the role namespace is
    never raised. *)
Lemma role_ns_never_RuntimeError (m : gmap string pyval) msg :
  _get_galaxy_role_ns m ≠ Raise (RuntimeError msg).
Proof.
  unfold _get_galaxy_role_ns.
  destruct (py_len _) as [n|e] eqn:Hlen; simpl.
  - destruct (re_match_val _ _) as [[r|]|e] eqn:Hm; simpl; try done.
    destruct (if Nat.eqb n 0 then _ else _); simpl in Hm; congruence.
  - destruct (dict_get m "namespace" _) as [| | |[]]; simpl in Hlen; congruence.
Qed.

(** C9. When the namespace value that is used is not text, the code raises
    [TypeError] (from [len] or from [re.match]), not the error that says
    the role namespace must be a string. *)
Theorem role_ns_not_text_raises_TypeError (m : gmap string pyval) :
  is_str (resolved_namespace m) = false →
  _get_galaxy_role_ns m = Raise TypeError.
Proof.
  unfold resolved_namespace, _get_galaxy_role_ns.
  destruct (dict_get m "namespace" _) as [s| |z|[[|n]|] text]; simpl;
    try done.
  - destruct s; simpl; [|done].
    by destruct (dict_get m "author" _).
  - by destruct (dict_get m "author" _).
Qed.

Lemma role_ns_not_text_raises_TypeError_witness :
  _get_galaxy_role_ns {[ "namespace" := PyInt 5 ]} = Raise TypeError.
Proof. apply role_ns_not_text_raises_TypeError. reflexivity. Defined.

(** ** Strings *)

Lemma app_cons c s t : String c s +:+ t = String c (s +:+ t).
Proof. reflexivity. Qed.

Lemma app_nil_left t : EmptyString +:+ t = t.
Proof. reflexivity. Qed.

Lemma app_nil_right s : s +:+ EmptyString = s.
Proof. induction s as [|c s IH]; [done|]. by rewrite app_cons, IH. Qed.

Lemma app_assoc_str s t u : (s +:+ t) +:+ u = s +:+ t +:+ u.
Proof. induction s as [|c s IH]; [done|]. by rewrite !app_cons, IH. Qed.

Lemma all_chars_app p s t :
  all_chars p (s +:+ t) = all_chars p s && all_chars p t.
Proof.
  induction s as [|c s IH]; [done|].
  rewrite app_cons; simpl. by rewrite IH, andb_assoc.
Qed.

Lemma all_chars_ext p q s :
  (∀ c, p c = q c) → all_chars p s = all_chars q s.
Proof. intros E. induction s as [|c s IH]; [done|]. simpl. by rewrite E, IH. Qed.

Lemma all_chars_impl (p q : ascii → bool) s :
  (∀ c, p c = true → q c = true) →
  all_chars p s = true → all_chars q s = true.
Proof.
  intros E. induction s as [|c s IH]; [done|]. simpl.
  intros [? ?]%andb_true_iff. apply andb_true_iff. auto.
Qed.

Lemma nonempty_app_l s t : nonempty s = true → nonempty (s +:+ t) = true.
Proof. by destruct s. Qed.

(** ** The matcher decides the relation *)

Ltac invert H := inversion H; subst; clear H.

Lemma strip_prefix_spec p s s' : strip_prefix p s = Some s' ↔ s = p +:+ s'.
Proof.
  revert s. induction p as [|a p IH]; intros s; simpl.
  - rewrite app_nil_left. split; congruence.
  - destruct s as [|b s]; [by rewrite app_cons|].
    rewrite app_cons. destruct (Ascii.eqb_spec a b) as [->|Hne].
    + rewrite IH. split; congruence.
    + split; [done|]. intros E. invert E. done.
Qed.

Lemma plus_rel_spec cs s s' :
  plus_rel cs s s' ↔
  ∃ w, s = w +:+ s' ∧ nonempty w = true ∧ all_chars (in_class cs) w = true.
Proof.
  split.
  - induction 1 as [c s Hc | c s s' Hc _ (w & -> & _ & Hw)].
    + exists (String c EmptyString). simpl. by rewrite Hc.
    + exists (String c w). simpl. by rewrite Hc, Hw.
  - intros (w & -> & Hne & Hw). revert Hne Hw.
    induction w as [|c w IH]; [done|]. simpl.
    intros _ [Hc Hw]%andb_true_iff. rewrite app_cons.
    destruct w as [|d w].
    + by apply plus_one.
    + apply plus_more; [done|]. by apply IH.
Qed.

Lemma more_spec cs k s :
  is_Some (more cs k s) ↔
  is_Some (k s) ∨ ∃ s', plus_rel cs s s' ∧ is_Some (k s').
Proof.
  induction s as [|c s IH]; simpl.
  - split; [by left|]. intros [?|(s' & H & _)]; [done|]. invert H.
  - destruct (in_class cs c) eqn:Hc.
    + destruct (more cs k s) as [r|] eqn:Hm.
      * split; [intros _|by eauto].
        destruct (proj1 IH) as [Hk|(s' & Hp & Hk)]; [by eauto|..].
        -- right. exists s. split; [by apply plus_one|done].
        -- right. exists s'. split; [by apply plus_more|done].
      * split; [by left|]. intros [?|(s' & Hp & Hk)]; [done|].
        exfalso. invert Hp.
        -- destruct (proj2 IH) as [? ?]; [by left|done].
        -- destruct (proj2 IH) as [? ?]; [right; by eauto|done].
    + split; [by left|]. intros [?|(s' & Hp & _)]; [done|].
      invert Hp; congruence.
Qed.

Lemma run_spec n r : ∀ s k,
  is_Some (run n r s k) ↔ ∃ s', matches n r s s' ∧ is_Some (k s').
Proof.
  induction r as [| |p|cs|r1 IH1 r2 IH2|r1 IH1 r2 IH2]; intros s k; simpl.
  - destruct (Nat.eqb_spec (String.length s) n) as [E|E].
    + split; [intros ?; exists s; split; [by constructor|done]|].
      intros (s' & H & Hk). by invert H.
    + split; [by intros [? ?]|]. intros (s' & H & _). by invert H.
  - destruct (at_end s) eqn:E.
    + split; [intros ?; exists s; split; [by constructor|done]|].
      intros (s' & H & Hk). by invert H.
    + split; [by intros [? ?]|]. intros (s' & H & _). invert H. congruence.
  - destruct (strip_prefix p s) as [s1|] eqn:E.
    + split; [intros ?; exists s1; split; [by constructor|done]|].
      intros (s' & H & Hk). invert H. congruence.
    + split; [by intros [? ?]|]. intros (s' & H & _). invert H. congruence.
  - destruct s as [|c s].
    + split; [by intros [? ?]|]. intros (s' & H & _). invert H.
      match goal with H : plus_rel _ _ _ |- _ => invert H end.
    + destruct (in_class cs c) eqn:Hc.
      * rewrite more_spec. split.
        -- intros [Hk|(s' & Hp & Hk)].
           ++ exists s. split; [constructor; by apply plus_one|done].
           ++ exists s'. split; [constructor; by apply plus_more|done].
        -- intros (s' & H & Hk). invert H.
           match goal with H : plus_rel _ _ _ |- _ => invert H end;
             [by left|right; eauto].
      * split; [by intros [? ?]|]. intros (s' & H & _). invert H.
        match goal with H : plus_rel _ _ _ |- _ => invert H end; congruence.
  - rewrite IH1. split.
    + intros (s1 & H1 & (s2 & H2 & Hk)%IH2).
      exists s2. split; [by econstructor|done].
    + intros (s2 & H & Hk). invert H.
      eexists. split; [eassumption|]. apply IH2. eauto.
  - destruct (run n r1 s k) as [x|] eqn:E.
    + split; [intros _|by eauto].
      destruct (proj1 (IH1 s k)) as (s' & H & Hk); [by rewrite E; eauto|].
      exists s'. split; [by apply m_alt_l|done].
    + rewrite IH2. split.
      * intros (s' & H & Hk). exists s'. split; [by apply m_alt_r|done].
      * intros (s' & H & Hk). invert H; [|by eauto].
        destruct (proj2 (IH1 s k)) as [? ?]; [by eauto|congruence].
Qed.

Lemma re_match_spec r s :
  is_Some (re_match r s) ↔ ∃ s', matches (String.length s) r s s'.
Proof.
  unfold re_match. rewrite run_spec. split.
  - intros (s' & H & _). eauto.
  - intros (s' & H). eauto.
Qed.

Lemma matches_seq n r1 r2 s s' :
  matches n (Seq r1 r2) s s' ↔
  ∃ s1, matches n r1 s s1 ∧ matches n r2 s1 s'.
Proof.
  split; [intros H; invert H; eauto|].
  intros (s1 & H1 & H2). by econstructor.
Qed.

Lemma matches_alt n r1 r2 s s' :
  matches n (Alt r1 r2) s s' ↔ matches n r1 s s' ∨ matches n r2 s s'.
Proof.
  split; [intros H; invert H; eauto|].
  intros [H|H]; [by apply m_alt_l|by apply m_alt_r].
Qed.

Lemma matches_bol n s s' :
  matches n Bol s s' ↔ s' = s ∧ String.length s = n.
Proof.
  split; [intros H; by invert H|]. intros [-> H]. by constructor.
Qed.

Lemma matches_eol n s s' :
  matches n Eol s s' ↔ s' = s ∧ at_end s = true.
Proof.
  split; [intros H; by invert H|]. intros [-> H]. by constructor.
Qed.

Lemma matches_str n p s s' : matches n (Str p) s s' ↔ s = p +:+ s'.
Proof.
  rewrite <- strip_prefix_spec.
  split; [intros H; by invert H|]. intros H. by constructor.
Qed.

Lemma matches_plus n cs s s' :
  matches n (Plus cs) s s' ↔
  ∃ w, s = w +:+ s' ∧ nonempty w = true ∧ all_chars (in_class cs) w = true.
Proof.
  rewrite <- plus_rel_spec.
  split; [intros H; by invert H|]. intros H. by constructor.
Qed.

Lemma matches_word1 n s s' :
  matches n word1 s s' ↔ ∃ w, s = w +:+ s' ∧ word_token w = true.
Proof.
  unfold word1, word_token. rewrite matches_plus.
  assert (E : ∀ w, all_chars (in_class [CWord]) w = all_chars is_word w).
  { intros w. apply all_chars_ext. intros c. unfold in_class; simpl.
    by rewrite orb_false_r. }
  split; intros (w & -> & H); exists w; (split; [done|]).
  - destruct H as [H1 H2]. rewrite E in H2. by rewrite H1, H2.
  - apply andb_true_iff in H as [H1 H2]. by rewrite E.
Qed.

Lemma matches_dotword1 n s s' :
  matches n dotword1 s s' ↔ ∃ t, s = t +:+ s' ∧ dotted_tail t = true.
Proof.
  unfold dotword1, dotted_tail. rewrite matches_plus.
  assert (E : ∀ w, all_chars (in_class [CChar dot; CWord]) w
                   = all_chars (λ c, Ascii.eqb c dot || is_word c) w).
  { intros w. apply all_chars_ext. intros c. unfold in_class; simpl.
    by rewrite orb_false_r, Ascii.eqb_sym. }
  split; intros (w & -> & H); exists w; (split; [done|]).
  - destruct H as [H1 H2]. rewrite E in H2. by rewrite H1, H2.
  - apply andb_true_iff in H as [H1 H2]. by rewrite E.
Qed.

Lemma at_end_spec s :
  at_end s = true ↔ s = EmptyString ∨ s = String newline EmptyString.
Proof.
  destruct s as [|c [|d s]]; simpl.
  - split; [by left|done].
  - destruct (Ascii.eqb_spec c newline) as [->|Hne].
    + split; [by right|done].
    + split; [done|]. intros [?|E]; [done|]. by invert E.
  - split; [done|]. by intros [?|?].
Qed.

(** What the test of [_make_module_stub] lets through. *)
Lemma module_name_ok_spec s :
  module_name_ok s = true ↔
  ∃ body rest, s = body +:+ rest ∧ at_end rest = true ∧ accepted_shape body.
Proof.
  assert (Hok : module_name_ok s = true
                ↔ is_Some (re_match module_name_re s)).
  { unfold module_name_ok. destruct (re_match _ _); split; eauto; try done.
    all: by intros [? ?]. }
  rewrite Hok, re_match_spec. unfold module_name_re. split.
  - intros (s' & Hm).
    apply matches_seq in Hm as (s1 & [-> _]%matches_bol & Hm).
    apply matches_seq in Hm as (s2 & Ha & [-> He]%matches_eol).
    apply matches_alt in Ha as [Hw | Hq].
    + apply matches_word1 in Hw as (w & -> & Hw).
      exists w, s2. split; [done|]. split; [done|]. by left.
    + apply matches_seq in Hq as (t1 & (w1 & -> & Hw1)%matches_word1 & Hq).
      apply matches_seq in Hq as (t2 & ->%matches_str & Hq).
      apply matches_seq in Hq as (t3 & (w2 & -> & Hw2)%matches_word1 & Hq).
      apply matches_seq in Hq as (t4 & ->%matches_str & Hq).
      apply matches_dotword1 in Hq as (t & -> & Ht).
      exists (w1 +:+ "." +:+ w2 +:+ "." +:+ t), s2.
      split; [by rewrite !app_assoc_str|]. split; [done|].
      right. by exists w1, w2, t.
  - intros (body & rest & -> & He & Hs).
    exists rest. apply matches_seq. exists (body +:+ rest).
    split; [by apply matches_bol|].
    apply matches_seq. exists rest. split; [|by apply matches_eol].
    apply matches_alt. destruct Hs as [Hw | (w1 & w2 & t & -> & H1 & H2 & Ht)].
    + left. apply matches_word1. by exists body.
    + right. rewrite !app_assoc_str.
      apply matches_seq. eexists. split; [apply matches_word1; eauto|].
      apply matches_seq. eexists. split; [by apply matches_str|].
      apply matches_seq. eexists. split; [apply matches_word1; eauto|].
      apply matches_seq. eexists. split; [by apply matches_str|].
      apply matches_dotword1. eauto.
Qed.

Lemma ends_with_newline_app b :
  ends_with_newline (b +:+ String newline EmptyString) = true.
Proof.
  induction b as [|c b IH]; [done|].
  rewrite app_cons. simpl. destruct b; [done|].
  by rewrite app_cons in *.
Qed.

(** ** The identifiers the stub writer accepts *)

(** C3, as stated, fails: an identifier with two dots in a row after the
    second segment is accepted. *)
Lemma accepted_is_not_single_dotted :
  ¬ (∀ s, module_name_ok s = true ↔ spec_module_identifier s = true).
Proof.
  intros H. specialize (H "a.b..c").
  destruct H as [H _]. by specialize (H eq_refl).
Qed.

(** C3, amended. An identifier of ASCII characters that does not end in a
    newline is accepted exactly when it is a word token, or is two word
    tokens each followed by a dot and then one or more word characters and
    dots. *)
Theorem accepted_module_names s :
  ascii_text s = true →
  ends_with_newline s = false →
  (module_name_ok s = true ↔ accepted_shape s).
Proof.
  intros _ Hnl. rewrite module_name_ok_spec. split.
  - intros (body & rest & -> & [-> | ->]%at_end_spec & Hs).
    + by rewrite app_nil_right.
    + by rewrite ends_with_newline_app in Hnl.
  - intros Hs. exists s, EmptyString. by rewrite app_nil_right.
Qed.

Lemma accepted_module_names_witness :
  module_name_ok "ns.coll.sub.mod" = true ↔ accepted_shape "ns.coll.sub.mod".
Proof.
  apply (accepted_module_names "ns.coll.sub.mod"); reflexivity.
Defined.

(** ** Splitting and joining *)

Lemma split_cons_inv sep s : ∃ p ps, split sep s = p :: ps.
Proof.
  induction s as [|c s (p & ps & IH)]; simpl; [by eauto|].
  destruct (Ascii.eqb c sep); [by eauto|]. rewrite IH. eauto.
Qed.

Lemma join_cons sep x y l :
  join sep (x :: y :: l) = x +:+ sep +:+ join sep (y :: l).
Proof. reflexivity. Qed.

(** Joining what [split] gives is the text again. *)
Lemma join_split sep s : join (String sep EmptyString) (split sep s) = s.
Proof.
  induction s as [|c s IH]; [done|]. simpl.
  destruct (Ascii.eqb_spec c sep) as [->|Hne].
  - destruct (split_cons_inv sep s) as (p & ps & E). rewrite E in *.
    rewrite join_cons, IH. reflexivity.
  - destruct (split_cons_inv sep s) as (p & ps & E). rewrite E in *.
    destruct ps as [|q ps].
    + simpl in *. by rewrite IH.
    + rewrite join_cons in *. by rewrite app_cons, IH.
Qed.

Lemma split_free sep w : free sep w = true → split sep w = [w].
Proof.
  induction w as [|c w IH]; [done|]. simpl.
  intros [Hc Hw]%andb_true_iff. apply negb_true_iff in Hc.
  by rewrite Hc, IH.
Qed.

Lemma split_app sep w t :
  free sep w = true →
  split sep (w +:+ String sep t) = w :: split sep t.
Proof.
  induction w as [|c w IH].
  - intros _. rewrite app_nil_left. simpl. by rewrite Ascii.eqb_refl.
  - simpl. intros [Hc Hw]%andb_true_iff. apply negb_true_iff in Hc.
    rewrite ?app_cons. simpl. by rewrite Hc, IH.
Qed.

(** Splitting what [join] gives is the list again, for a list that is not
    empty and whose members are free of the separator. *)
Lemma split_join sep l :
  l ≠ [] → forallb (free sep) l = true →
  split sep (join (String sep EmptyString) l) = l.
Proof.
  induction l as [|x l IH]; [done|]. intros _. simpl forallb.
  intros [Hx Hl]%andb_true_iff.
  destruct l as [|y l]; [by apply split_free|].
  rewrite join_cons, app_cons, app_nil_left, split_app by done.
  f_equal. by apply IH.
Qed.

Lemma split_parts_free c sep s :
  free c s = true → forallb (free c) (split sep s) = true.
Proof.
  unfold free. induction s as [|a s IH]; [done|]. simpl.
  intros [Ha Hs]%andb_true_iff. specialize (IH Hs).
  destruct (Ascii.eqb a sep); [done|].
  destruct (split sep s) as [|p ps]; simpl in *.
  - by rewrite Ha.
  - apply andb_true_iff in IH as [Hp Hps]. by rewrite Ha, Hp, Hps.
Qed.

Lemma split_parts_sep_free sep s : forallb (free sep) (split sep s) = true.
Proof.
  unfold free. induction s as [|a s IH]; [done|]. simpl.
  destruct (Ascii.eqb a sep) eqn:E; [done|].
  destruct (split sep s) as [|p ps]; simpl in *.
  - by rewrite E.
  - apply andb_true_iff in IH as [Hp Hps]. by rewrite E, Hp, Hps.
Qed.

(** ** Cancelling in equations between strings *)

Lemma list_of_app s t :
  list_ascii_of_string (s +:+ t)
  = (list_ascii_of_string s ++ list_ascii_of_string t)%list.
Proof. induction s as [|c s IH]; [done|]. rewrite app_cons. simpl. by rewrite IH. Qed.

Lemma list_of_inj s t :
  list_ascii_of_string s = list_ascii_of_string t → s = t.
Proof.
  intros E. rewrite <- (string_of_list_ascii_of_string s),
    <- (string_of_list_ascii_of_string t). by rewrite E.
Qed.

Lemma app_inv_tail_str s t u : s +:+ u = t +:+ u → s = t.
Proof.
  intros E. apply list_of_inj.
  apply (f_equal list_ascii_of_string) in E. rewrite !list_of_app in E.
  by apply app_inv_tail in E.
Qed.

Lemma app_inv_head_str s t u : s +:+ t = s +:+ u → t = u.
Proof. apply String.app_inj. Qed.

(** Two texts free of [c], each followed by [c]: equal wholes have equal
    parts. *)
Lemma app_sep_inj c a b x y :
  free c a = true → free c b = true →
  a +:+ String c x = b +:+ String c y → a = b ∧ x = y.
Proof.
  revert b. induction a as [|p a IH]; intros [|q b]; simpl;
    rewrite ?app_cons, ?app_nil_left.
  - intros _ _ E. by invert E.
  - intros _ [Hq _]%andb_true_iff E. invert E.
    by rewrite Ascii.eqb_refl in Hq.
  - intros [Hp _]%andb_true_iff _ E. invert E.
    by rewrite Ascii.eqb_refl in Hp.
  - intros [_ Ha]%andb_true_iff [_ Hb]%andb_true_iff E. invert E.
    destruct (IH b Ha Hb) as [-> ->]; done.
Qed.

(** ** Where a stub goes *)

Lemma py_index_last_app {A} (l : list A) x : py_index_last (l ++ [x]) = Ok x.
Proof. unfold py_index_last. by rewrite rev_unit. Qed.

Lemma three_parts (l : list string) :
  3 ≤ List.length l → ∃ a b mid z, l = a :: b :: mid ++ [z].
Proof.
  destruct l as [|a [|b [|c l]]]; simpl; try lia. intros _.
  destruct (exists_last (l := c :: l)) as (mid & z & E); [done|].
  exists a, b, mid, z. by rewrite E.
Qed.

Lemma stub_target_bare cache id :
  List.length (split dot id) < 3 →
  stub_target cache id
  = Ok (cache +:+ "/modules", cache +:+ "/modules/" +:+ id +:+ ".py",
        None, None).
Proof.
  intros H. unfold stub_target.
  by rewrite (proj2 (Nat.ltb_lt _ _) H).
Qed.

Lemma stub_target_qualified cache id ns coll mid stem :
  split dot id = ns :: coll :: mid ++ [stem] →
  let path :=
    cache +:+ "/collections/ansible_collections/" +:+ ns +:+ "/" +:+ coll
    +:+ "/plugins/modules/" +:+ join "/" mid in
  stub_target cache id
  = Ok (path, path +:+ "/" +:+ stem +:+ ".py", Some ns, Some coll).
Proof.
  intros E path. unfold stub_target. rewrite E.
  assert (L : Nat.ltb (List.length (ns :: coll :: mid ++ [stem])) 3 = false).
  { apply Nat.ltb_ge. simpl. rewrite length_app. simpl. lia. }
  rewrite L. unfold py_index, slice_2_m1. simpl nth_error. simpl skipn.
  rewrite ?drop_0.
  rewrite removelast_last.
  change (ns :: coll :: mid ++ [stem]) with ((ns :: coll :: mid) ++ [stem]).
  rewrite py_index_last_app. reflexivity.
Qed.

Lemma stub_file_bare cache id :
  List.length (split dot id) < 3 →
  stub_file cache id = Ok (cache +:+ "/modules/" +:+ id +:+ ".py").
Proof. intros H. unfold stub_file. by rewrite stub_target_bare. Qed.

Lemma stub_file_qualified cache id ns coll mid stem :
  split dot id = ns :: coll :: mid ++ [stem] →
  stub_file cache id
  = Ok (cache +:+ "/collections/ansible_collections/" +:+ ns +:+ "/"
        +:+ coll +:+ "/plugins/modules/" +:+ join "/" mid +:+ "/" +:+ stem
        +:+ ".py").
Proof.
  intros E. unfold stub_file. rewrite (stub_target_qualified _ _ _ _ _ _ E).
  unfold rbind. f_equal. by rewrite !app_assoc_str.
Qed.

(** C5. The file of an accepted identifier: with fewer than three
    dot-segments it is [<cache_dir>/modules/<identifier>.py]; with three or
    more, the identifier is [ns.coll.<middle segments>.<last>] and the file
    is [<cache_dir>/collections/ansible_collections/ns/coll/plugins/modules/]
    followed by the middle segments joined with a slash, a slash, the last
    segment and [.py]. *)
Theorem stub_file_layout cache id :
  module_name_ok id = true →
  (List.length (split dot id) < 3 →
   stub_file cache id = Ok (cache +:+ "/modules/" +:+ id +:+ ".py"))
  ∧ (3 ≤ List.length (split dot id) →
     ∃ ns coll mid stem,
       split dot id = ns :: coll :: mid ++ [stem]
       ∧ id = join "." (ns :: coll :: mid ++ [stem])
       ∧ stub_file cache id
         = Ok (cache +:+ "/collections/ansible_collections/" +:+ ns +:+ "/"
               +:+ coll +:+ "/plugins/modules/" +:+ join "/" mid +:+ "/"
               +:+ stem +:+ ".py"))
  ∧ stub_file cache "ns.coll.sub.mod"
    = Ok (cache
          +:+ "/collections/ansible_collections/ns/coll/plugins/modules/sub/mod.py")
  ∧ stub_file cache "foo" = Ok (cache +:+ "/modules/foo.py").
Proof.
  intros _. split; [apply stub_file_bare|]. split.
  - intros (ns & coll & mid & stem & E)%three_parts.
    exists ns, coll, mid, stem. split; [done|]. split.
    + rewrite <- E. symmetry. apply (join_split dot).
    + by apply stub_file_qualified.
  - split.
    + by rewrite (stub_file_qualified cache _ "ns" "coll" ["sub"] "mod").
    + by rewrite stub_file_bare by (simpl; lia).
Qed.

Lemma stub_file_layout_witness :
  stub_file "/cache" "foo" = Ok "/cache/modules/foo.py"
  ∧ ∃ ns coll mid stem,
      split dot "ns.coll.sub.mod" = ns :: coll :: mid ++ [stem]
      ∧ "ns.coll.sub.mod" = join "." (ns :: coll :: mid ++ [stem])
      ∧ stub_file "/cache" "ns.coll.sub.mod"
        = Ok ("/cache" +:+ "/collections/ansible_collections/" +:+ ns +:+ "/"
              +:+ coll +:+ "/plugins/modules/" +:+ join "/" mid +:+ "/"
              +:+ stem +:+ ".py").
Proof.
  split.
  - destruct (stub_file_layout "/cache" "foo" eq_refl) as (H & _).
    apply H. simpl. lia.
  - destruct (stub_file_layout "/cache" "ns.coll.sub.mod" eq_refl)
      as (_ & H & _).
    apply H. simpl. lia.
Defined.

(** ** Different identifiers, different files *)

Lemma is_word_not_slash c : is_word c = true → negb (Ascii.eqb c slash) = true.
Proof. destruct (Ascii.eqb_spec c slash) as [->|]; [by vm_compute|done]. Qed.

Lemma word_token_slash_free w : word_token w = true → free slash w = true.
Proof.
  unfold word_token, free. intros [_ H]%andb_true_iff.
  revert H. apply all_chars_impl, is_word_not_slash.
Qed.

Lemma dotted_tail_slash_free t : dotted_tail t = true → free slash t = true.
Proof.
  unfold dotted_tail, free. intros [_ H]%andb_true_iff.
  revert H. apply all_chars_impl. intros c [E|E]%orb_true_iff.
  - apply Ascii.eqb_eq in E as ->. by vm_compute.
  - by apply is_word_not_slash.
Qed.

Lemma free_app c s t : free c (s +:+ t) = free c s && free c t.
Proof. apply all_chars_app. Qed.

(** An accepted identifier has no slash. *)
Lemma accepted_slash_free s : module_name_ok s = true → free slash s = true.
Proof.
  intros (body & rest & -> & He & Hs)%module_name_ok_spec.
  rewrite free_app. apply andb_true_iff. split.
  - destruct Hs as [Hw | (w1 & w2 & t & -> & H1 & H2 & Ht)].
    + by apply word_token_slash_free.
    + rewrite !free_app.
      rewrite (word_token_slash_free _ H1), (word_token_slash_free _ H2),
        (dotted_tail_slash_free _ Ht).
      reflexivity.
  - apply at_end_spec in He as [-> | ->]; reflexivity.
Qed.

Lemma no_adjacent_dots_double a b :
  no_adjacent_dots (a +:+ ".." +:+ b) = false.
Proof.
  induction a as [|c a IH]; [done|].
  rewrite app_cons. simpl. simpl in IH. rewrite IH. apply andb_false_r.
Qed.

Lemma join_snoc sep l x :
  l ≠ [] → join sep (l ++ [x]) = join sep l +:+ sep +:+ x.
Proof.
  induction l as [|y l IH]; [done|]. intros _.
  destruct l as [|z l]; [done|].
  change ((y :: z :: l) ++ [x]) with (y :: (z :: l) ++ [x]).
  change ((z :: l) ++ [x]) with (z :: l ++ [x]) at 1.
  rewrite join_cons.
  change (z :: l ++ [x]) with ((z :: l) ++ [x]).
  rewrite IH by done. rewrite join_cons. by rewrite !app_assoc_str.
Qed.

(** The text after [plugins/modules/] gives back the middle segments and
    the last one, unless the middle is one empty segment. *)
Lemma tail_inj mid1 z1 mid2 z2 :
  forallb (free slash) (mid1 ++ [z1]) = true →
  forallb (free slash) (mid2 ++ [z2]) = true →
  mid1 ≠ [EmptyString] → mid2 ≠ [EmptyString] →
  join "/" mid1 +:+ "/" +:+ z1 = join "/" mid2 +:+ "/" +:+ z2 →
  mid1 = mid2 ∧ z1 = z2.
Proof.
  intros F1 F2 N1 N2 E.
  assert (S : ∀ mid z, forallb (free slash) (mid ++ [z]) = true →
            split slash (join "/" mid +:+ "/" +:+ z)
            = match mid with
              | [] => [EmptyString; z]
              | _ => mid ++ [z]
              end).
  { intros mid z F. destruct mid as [|x mid].
    - apply (split_join slash [EmptyString; z]); [done|].
      simpl in *. by rewrite F.
    - rewrite <- join_snoc by done. by apply (split_join slash). }
  apply (f_equal (split slash)) in E. rewrite !S in E by done.
  destruct mid1 as [|x1 m1], mid2 as [|x2 m2].
  - by invert E.
  - exfalso. apply N2.
    destruct m2 as [|y m2]; simpl in E; [by invert E|].
    invert E. by destruct m2.
  - exfalso. apply N1.
    destruct m1 as [|y m1]; simpl in E; [by invert E|].
    invert E. by destruct m1.
  - by apply app_inj_tail in E.
Qed.

Lemma one_empty_middle_has_double_dot id ns coll z :
  split dot id = ns :: coll :: [EmptyString] ++ [z] →
  no_adjacent_dots id = false.
Proof.
  intros E. rewrite <- (join_split dot id), E.
  replace (join (String dot EmptyString) (ns :: coll :: [EmptyString] ++ [z]))
    with ((ns +:+ "." +:+ coll) +:+ ".." +:+ z).
  - apply no_adjacent_dots_double.
  - simpl. by rewrite !app_assoc_str.
Qed.

(** C4, as stated, fails: two accepted identifiers share their file. *)
Lemma accepted_identifiers_collide :
  ¬ (∀ cache id1 id2,
       module_name_ok id1 = true → module_name_ok id2 = true →
       stub_file cache id1 = stub_file cache id2 → id1 = id2).
Proof.
  intros H.
  specialize (H "/cache" "a.b.c" "a.b..c" eq_refl eq_refl eq_refl).
  discriminate H.
Qed.

(** C4, amended. Among the accepted identifiers that have no two dots in a
    row, equal files mean equal identifiers. *)
Theorem stub_file_injective cache id1 id2 :
  module_name_ok id1 = true → module_name_ok id2 = true →
  no_adjacent_dots id1 = true → no_adjacent_dots id2 = true →
  stub_file cache id1 = stub_file cache id2 → id1 = id2.
Proof.
  intros A1 A2 D1 D2.
  pose proof (split_parts_free slash dot _ (accepted_slash_free _ A1)) as F1.
  pose proof (split_parts_free slash dot _ (accepted_slash_free _ A2)) as F2.
  destruct (Nat.lt_ge_cases (List.length (split dot id1)) 3) as [L1|L1];
    destruct (Nat.lt_ge_cases (List.length (split dot id2)) 3) as [L2|L2].
  - rewrite !stub_file_bare by done. intros [= E].
    do 2 apply app_inv_head_str in E. by apply app_inv_tail_str in E.
  - apply three_parts in L2 as (ns & coll & mid & z & E2).
    rewrite (stub_file_bare _ _ L1), (stub_file_qualified _ _ _ _ _ _ E2).
    intros [= E]. apply app_inv_head_str in E. discriminate E.
  - apply three_parts in L1 as (ns & coll & mid & z & E1).
    rewrite (stub_file_bare _ _ L2), (stub_file_qualified _ _ _ _ _ _ E1).
    intros [= E]. apply app_inv_head_str in E. discriminate E.
  - apply three_parts in L1 as (ns1 & coll1 & mid1 & z1 & E1).
    apply three_parts in L2 as (ns2 & coll2 & mid2 & z2 & E2).
    rewrite (stub_file_qualified _ _ _ _ _ _ E1),
      (stub_file_qualified _ _ _ _ _ _ E2).
    intros [= E].
    rewrite E1 in F1. rewrite E2 in F2. simpl in F1, F2.
    apply andb_true_iff in F1 as [Fn1 [Fc1 Fm1]%andb_true_iff].
    apply andb_true_iff in F2 as [Fn2 [Fc2 Fm2]%andb_true_iff].
    do 2 apply app_inv_head_str in E.
    apply (app_sep_inj slash) in E as [En E]; [|done..].
    apply (app_sep_inj slash) in E as [Ec E]; [|done..].
    injection E as E.
    rewrite <- !(app_assoc_str _ _ ".py") in E.
    apply app_inv_tail_str in E.
    rewrite ?app_assoc_str in E.
    apply tail_inj in E as [Em Ez]; try done.
    + rewrite <- (join_split dot id1), <- (join_split dot id2).
      by rewrite E1, E2, En, Ec, Em, Ez.
    + intros ->. by rewrite (one_empty_middle_has_double_dot _ _ _ _ E1) in D1.
    + intros ->. by rewrite (one_empty_middle_has_double_dot _ _ _ _ E2) in D2.
Qed.

Lemma stub_file_injective_witness :
  module_name_ok "ns.coll.mod" = true
  ∧ no_adjacent_dots "ns.coll.mod" = true
  ∧ "ns.coll.mod" = "ns.coll.mod".
Proof.
  split; [reflexivity|]. split; [reflexivity|].
  apply (stub_file_injective "/cache" "ns.coll.mod" "ns.coll.mod");
    reflexivity.
Defined.

(** ** The stub writer *)

(** C6. An identifier (of ASCII characters, where the test is the one
    modelled) that fails the test makes [_make_module_stub] log the
    configuration error and leave with [INVALID_CONFIG_RC]; the file system
    is as before and no change to it was made. *)
Theorem invalid_module_name_exits env id w :
  ascii_text id = true →
  module_name_ok id = false →
  _make_module_stub env id w
  = (Raise (SystemExit (INVALID_CONFIG_RC env)),
     mkWorld (cwd w) (fs w)
       (log w ++ ["Config error: " +:+ id +:+ " is not a valid module name."])
       (trace w)).
Proof. intros _ H. unfold _make_module_stub. by rewrite H. Qed.

Lemma invalid_module_name_exits_witness :
  ascii_text "1bad!name" = true
  ∧ module_name_ok "1bad!name" = false
  ∧ _make_module_stub example_env "1bad!name" fresh_world
    = (Raise (SystemExit 2),
       mkWorld "/work/tools" project_files
         ["Config error: 1bad!name is not a valid module name."] []).
Proof.
  split; [reflexivity|]. split; [reflexivity|].
  apply (invalid_module_name_exits example_env "1bad!name" fresh_world);
    reflexivity.
Defined.

(** C10. For an accepted identifier, [_make_module_stub] creates the
    directory and then writes, to the stub file, the template formatted with
    [name] set to the path of that file; when the call returns, that text is
    what the file holds. *)
Theorem stub_name_is_file_path env id w path file ns coll :
  module_name_ok id = true →
  stub_target (cache_dir (options env)) id = Ok (path, file, ns, coll) →
  let kw :=
    [("name", PyStr file);
     ("collection", opt_val coll);
     ("namespace", opt_val ns)] in
  _make_module_stub env id w
  = (let! _ := makedirs (Path.of_string path) in
     let! body := lift (py_format (ANSIBLE_MOCKED_MODULE env) kw) in
     write_text (Path.of_string file) body) w
  ∧ ∀ w',
      _make_module_stub env id w = (Ok tt, w') →
      ∃ body key,
        py_format (ANSIBLE_MOCKED_MODULE env) kw = Ok body
        ∧ (∃ before, trace w' = before ++ [EvWrite key body])
        ∧ fs w' !! key = Some (File body).
Proof.
  intros Hok Ht kw.
  assert (E : _make_module_stub env id w
              = (let! _ := makedirs (Path.of_string path) in
                 let! body := lift (py_format (ANSIBLE_MOCKED_MODULE env) kw) in
                 write_text (Path.of_string file) body) w).
  { unfold _make_module_stub. rewrite Hok.
    unfold bind at 1, lift at 1. by rewrite Ht. }
  split; [exact E|]. intros w' Hrun. rewrite E in Hrun.
  unfold bind at 1 in Hrun.
  destruct (makedirs (Path.of_string path) w) as [[[]|e] w1]; [|done].
  unfold bind, lift in Hrun.
  destruct (py_format _ _) as [body|e]; [|done].
  exists body. unfold write_text in Hrun.
  repeat case_match; simplify_eq;
    (eexists; split; [done|]; split;
     [eexists; reflexivity | simpl; apply lookup_insert_eq]).
Qed.

Lemma stub_name_is_file_path_witness :
  ∃ body key,
    py_format [Text "module: "; Field "name"]
      [("name", PyStr "/cache/modules/foo.py");
       ("collection", PyNone);
       ("namespace", PyNone)] = Ok body
    ∧ (∃ before,
         trace (snd (_make_module_stub example_env "foo" fresh_world))
         = before ++ [EvWrite key body])
    ∧ fs (snd (_make_module_stub example_env "foo" fresh_world)) !! key
      = Some (File body).
Proof.
  destruct (stub_name_is_file_path example_env "foo" fresh_world
              "/cache/modules" "/cache/modules/foo.py" None None
              eq_refl eq_refl) as [_ H].
  apply (H (snd (_make_module_stub example_env "foo" fresh_world))).
  reflexivity.
Defined.

(** What was written in the example: the path, not [foo]. *)
Example stub_for_foo :
  fs (snd (_make_module_stub example_env "foo" fresh_world))
    !! "/cache/modules/foo.py"
  = Some (File "module: /cache/modules/foo.py").
Proof. reflexivity. Qed.

(** ** The self-collection link *)

(** What [os.readlink] returns is never equal to the [Path] it is compared
    with, whatever the two say. *)
Lemma readlink_differs_from_path old target :
  py_ne (OStr old) (OPath target) = true.
Proof. reflexivity. Qed.

(** C7. A second run with nothing changed finds the link in place, pointing
    at the project, and still removes it and creates it again. *)
Theorem second_run_renews_link :
  let first := link_self_collection example_env fresh_world in
  let second := link_self_collection example_env (snd first) in
  fst first = Ok tt
  ∧ fs (snd first) !! example_link = Some (Link "/work/tools")
  ∧ fst second = Ok tt
  ∧ fs (snd second) !! example_link = Some (Link "/work/tools")
  ∧ trace (snd second)
    = trace (snd first)
      ++ [EvUnlink example_link; EvSymlink example_link "/work/tools"].
Proof. vm_compute. repeat split; reflexivity. Qed.

(** C8. A link whose old target is gone is not replaced: the run fails with
    [FileExistsError] and the link stays as it was. *)
Theorem stale_link_is_not_replaced :
  let run := link_self_collection example_env stale_world in
  fs stale_world !! example_link = Some (Link "/gone/tools")
  ∧ fs stale_world !! "/gone/tools" = None
  ∧ fst run = Raise (OSError EEXIST)
  ∧ fs (snd run) !! example_link = Some (Link "/gone/tools").
Proof. vm_compute. repeat split; reflexivity. Qed.

(** With the old target still there, the link is replaced. *)
Example moved_link_is_replaced :
  let run := link_self_collection example_env moved_world in
  fst run = Ok tt
  ∧ fs (snd run) !! example_link = Some (Link "/work/tools")
  ∧ trace (snd run)
    = [EvUnlink example_link; EvSymlink example_link "/work/tools"].
Proof. vm_compute. repeat split; reflexivity. Qed.

(** ** Checks of the model against the interpreter *)

Example sub_takes_first_alternative :
  re_sub role_prefix_re EmptyString "ansible-role-web" = "role-web"
  ∧ re_sub role_prefix_re EmptyString "my-ansible-x" = "my-x".
Proof. split; reflexivity. Qed.

Example dollar_before_final_newline :
  module_name_ok ("foo" +:+ String newline EmptyString) = true
  ∧ module_name_ok "a.b" = false
  ∧ module_name_ok "a.b.c." = true
  ∧ module_name_ok ".a.b.c" = false.
Proof. repeat split; reflexivity. Qed.

Example paths_from_text :
  Path.to_string (Path.of_string "/a//b/./c/") = "/a/b/c"
  ∧ Path.to_string (Path.of_string "//a/b") = "//a/b"
  ∧ Path.to_string (Path.of_string "///a/b") = "/a/b"
  ∧ Path.to_string (Path.of_string EmptyString) = "."
  ∧ Path.to_string (Path.div (Path.of_string "x") (Path.of_string "/abs"))
    = "/abs".
Proof. repeat split; reflexivity. Qed.


(** * Further properties of the module *)

(** ** The namespace heuristic *)

(** [r"^\w+ \w+"] matches exactly the texts that start like a full name. *)
Lemma author_name_re_spec v :
  is_Some (re_match author_name_re v) ↔ author_shape v.
Proof.
  rewrite re_match_spec. unfold author_name_re, author_shape. split.
  - intros (s' & Hm).
    apply matches_seq in Hm as (s1 & [-> _]%matches_bol & Hm).
    apply matches_seq in Hm as (s2 & (w1 & -> & H1)%matches_word1 & Hm).
    apply matches_seq in Hm as (s3 & ->%matches_str & Hm).
    apply matches_word1 in Hm as (w2 & -> & H2).
    by exists w1, w2, s'.
  - intros (w1 & w2 & rest & -> & H1 & H2). exists rest.
    apply matches_seq. eexists. split; [by apply matches_bol|].
    apply matches_seq. eexists. split; [apply matches_word1; eauto|].
    apply matches_seq. eexists. split; [by apply matches_str|].
    apply matches_word1. eauto.
Qed.

Lemma role_ns_text (m : gmap string pyval) v :
  resolved_namespace m = PyStr v →
  _get_galaxy_role_ns m
  = match re_match author_name_re v with
    | Some _ => Ok EmptyString
    | None => Ok (v +:+ ".")
    end.
Proof.
  intros Hv. unfold resolved_namespace, _get_galaxy_role_ns in *.
  destruct (dict_get m "namespace" _) as [s| |z|[[|n]|] text];
    simpl in *; try done.
  - destruct s; simpl in *; [rewrite Hv | injection Hv as <-]; simpl;
      by destruct (re_match _ _).
  - rewrite Hv. simpl. by destruct (re_match _ _).
Qed.

(** X1. For a namespace value in use that is text of ASCII characters: a
    value that starts like a full name gives the empty namespace, any other
    value gives the value followed by a dot. *)
Theorem role_ns_of_text (m : gmap string pyval) v :
  resolved_namespace m = PyStr v → ascii_text v = true →
  (author_shape v → _get_galaxy_role_ns m = Ok EmptyString)
  ∧ (¬ author_shape v → _get_galaxy_role_ns m = Ok (v +:+ ".")).
Proof.
  intros Hv _. rewrite (role_ns_text m v Hv). split; intros H.
  - apply author_name_re_spec in H as [r ->]. done.
  - destruct (re_match author_name_re v) as [r|] eqn:Hr; [|done].
    destruct H. apply author_name_re_spec. by rewrite Hr.
Qed.

Lemma role_ns_of_text_witness :
  _get_galaxy_role_ns {[ "namespace" := PyStr "Jane Q Doe" ]} = Ok EmptyString.
Proof.
  apply (role_ns_of_text {[ "namespace" := PyStr "Jane Q Doe" ]} "Jane Q Doe");
    [reflexivity|reflexivity|].
  exists "Jane", "Q", " Doe". by repeat split.
Defined.

Lemma not_author_shape_no_space v : free " " v = true → ¬ author_shape v.
Proof.
  intros F (w1 & w2 & rest & -> & _ & _).
  rewrite !free_app in F.
  apply andb_true_iff in F as [_ F]. by apply andb_true_iff in F as [F _].
Qed.

Lemma role_ns_no_space (m : gmap string pyval) ns :
  m !! "namespace" = Some (PyStr ns) → nonempty ns = true →
  free " " ns = true →
  _get_galaxy_role_ns m = Ok (ns +:+ ".").
Proof.
  intros Hn Nn Fn.
  assert (R : resolved_namespace m = PyStr ns).
  { unfold resolved_namespace, dict_get. rewrite Hn. simpl. by destruct ns. }
  rewrite (role_ns_text m ns R).
  destruct (re_match author_name_re ns) as [r|] eqn:Hr; [|done].
  destruct (not_author_shape_no_space _ Fn).
  apply author_name_re_spec. by rewrite Hr.
Qed.

(** X2. With a namespace that is text without a space and a role name that
    is not empty, the result is namespace, dot, role name, whatever the
    working directory. *)
Theorem fqrn_of_namespace_and_name (m : gmap string pyval) cwd ns name :
  m !! "namespace" = Some (PyStr ns) → nonempty ns = true →
  free " " ns = true →
  m !! "role_name" = Some (PyStr name) → nonempty name = true →
  _get_role_fqrn cwd m = Ok (ns +:+ "." +:+ name).
Proof.
  intros Hn Nn Fn Hr Nr.
  unfold _get_role_fqrn, _get_galaxy_role_name.
  rewrite (role_ns_no_space m ns Hn Nn Fn). simpl.
  unfold dict_get. rewrite Hr. simpl. destruct name; [done|]. simpl.
  by rewrite app_assoc_str.
Qed.

Lemma fqrn_of_namespace_and_name_witness :
  _get_role_fqrn "/anywhere"
    {[ "namespace" := PyStr "acme"; "role_name" := PyStr "web" ]}
  = Ok "acme.web".
Proof.
  apply (fqrn_of_namespace_and_name _ "/anywhere" "acme" "web");
    reflexivity.
Defined.

(** [_get_galaxy_role_ns] raises nothing but [TypeError]. *)
Lemma role_ns_raises_only_TypeError (m : gmap string pyval) e :
  _get_galaxy_role_ns m = Raise e → e = TypeError.
Proof.
  unfold _get_galaxy_role_ns.
  destruct (py_len _) as [n|e1] eqn:Hlen; simpl.
  - destruct (re_match_val _ _) as [[r|]|e2] eqn:Hm; simpl; try done.
    intros [= <-]. unfold re_match_val in Hm.
    repeat case_match; congruence.
  - intros [= <-]. unfold py_len in Hlen. repeat case_match; congruence.
Qed.

(** X3. A role name that is present but has no length (a null or a
    number) makes [_get_role_fqrn] raise [TypeError]; the directory name is
    not used in its place. *)
Theorem fqrn_role_name_without_length (m : gmap string pyval) cwd v :
  m !! "role_name" = Some v → py_len v = Raise TypeError →
  _get_role_fqrn cwd m = Raise TypeError.
Proof.
  intros Hr Hl. unfold _get_role_fqrn, _get_galaxy_role_name.
  destruct (_get_galaxy_role_ns m) as [ns|e] eqn:E; simpl.
  - unfold dict_get. rewrite Hr. simpl. by rewrite Hl.
  - by rewrite (role_ns_raises_only_TypeError _ _ E).
Qed.

Lemma fqrn_role_name_without_length_witness :
  _get_role_fqrn "/srv/myrole"
    {[ "namespace" := PyStr "acme"; "role_name" := PyNone ]}
  = Raise TypeError.
Proof.
  apply (fqrn_role_name_without_length _ "/srv/myrole" PyNone); reflexivity.
Defined.

(** ** The name taken from the directory *)

Lemma strip_prefix_app_none a b s :
  strip_prefix a s = None → strip_prefix (a +:+ b) s = None.
Proof.
  revert s. induction a as [|c a IH]; intros s; [done|].
  rewrite app_cons. simpl. destruct s as [|d s]; [done|].
  destruct (Ascii.eqb c d); [apply IH|done].
Qed.

Lemma run_alt_longer n a b s :
  run n (Alt (Str a) (Str (a +:+ b))) s Some = run n (Str a) s Some.
Proof.
  simpl. destruct (strip_prefix a s) as [r|] eqn:E; [done|].
  by rewrite (strip_prefix_app_none _ _ _ E).
Qed.

Lemma sub_from_ext n r1 r2 repl :
  (∀ s, run n r1 s Some = run n r2 s Some) →
  ∀ s skip, sub_from n r1 repl skip s = sub_from n r2 repl skip s.
Proof.
  intros E. induction s as [|c s IH]; intros skip; simpl.
  - by rewrite E.
  - destruct skip as [|j]; [|apply IH]. rewrite E.
    destruct (run n r2 (String c s) Some) as [rest|]; [|by rewrite IH].
    destruct (_ - _); by rewrite IH.
Qed.

Lemma re_sub_first_alternative repl s :
  re_sub role_prefix_re repl s = re_sub (Str "ansible-") repl s.
Proof.
  unfold re_sub, role_prefix_re. apply sub_from_ext. intros t.
  apply (run_alt_longer _ "ansible-" "role-").
Qed.

(** X4. In [(ansible-|ansible-role-)] the second alternative changes
    nothing: for a replacement without a backslash, as the empty text of
    the module, the substitution is the one of [ansible-] alone. *)
Theorem role_prefix_second_alternative_unused repl s :
  free backslash repl = true →
  re_sub role_prefix_re repl s = re_sub (Str "ansible-") repl s.
Proof. intros _. apply re_sub_first_alternative. Qed.

Lemma role_prefix_second_alternative_unused_witness :
  re_sub role_prefix_re EmptyString "ansible-role-web"
  = re_sub (Str "ansible-") EmptyString "ansible-role-web".
Proof.
  apply (role_prefix_second_alternative_unused EmptyString). reflexivity.
Defined.

Lemma sub_from_no_occurrence n p repl s :
  occurs p s = false → sub_from n (Str p) repl 0 s = s.
Proof.
  induction s as [|c s IH]; simpl.
  - by destruct (strip_prefix p EmptyString).
  - destruct (strip_prefix p (String c s)); [done|].
    intros H. by rewrite IH.
Qed.

Lemma re_sub_absent repl s :
  occurs "ansible-" s = false → re_sub role_prefix_re repl s = s.
Proof.
  intros H. rewrite re_sub_first_alternative.
  by apply sub_from_no_occurrence.
Qed.

(** X5. A name in which [ansible-] does not occur is left as it is. *)
Theorem role_prefix_absent_name_kept repl s :
  occurs "ansible-" s = false → re_sub role_prefix_re repl s = s.
Proof. apply re_sub_absent. Qed.

Lemma role_prefix_absent_name_kept_witness :
  re_sub role_prefix_re EmptyString "my-role" = "my-role".
Proof. apply role_prefix_absent_name_kept. reflexivity. Defined.

(** X6. With a namespace that is text without a space and no role name,
    in a directory whose name does not contain [ansible-], the result is
    namespace, dot, directory name. *)
Theorem fqrn_from_directory_name (m : gmap string pyval) cwd ns dir :
  m !! "namespace" = Some (PyStr ns) → nonempty ns = true →
  free " " ns = true →
  empty_or_absent m "role_name" →
  in_directory_named cwd dir → occurs "ansible-" dir = false →
  _get_role_fqrn cwd m = Ok (ns +:+ "." +:+ dir).
Proof.
  intros Hn Nn Fn Hr Hd Ho.
  unfold _get_role_fqrn, _get_galaxy_role_name.
  rewrite (role_ns_no_space m ns Hn Nn Fn). simpl.
  rewrite (dict_get_empty_or_absent _ _ Hr). simpl.
  rewrite name_of_cwd, Hd, (re_sub_absent _ _ Ho). simpl.
  by rewrite app_assoc_str.
Qed.

Lemma fqrn_from_directory_name_witness :
  _get_role_fqrn "/srv/web" {[ "namespace" := PyStr "acme" ]}
  = Ok "acme.web".
Proof.
  apply (fqrn_from_directory_name _ "/srv/web" "acme" "web");
    first [ reflexivity | by left ].
Defined.

(** ** What the file system operations can raise *)

Lemma follow_raises fuel f p e :
  follow fuel f p = Raise e → is_OSError e.
Proof.
  revert p. induction fuel as [|fuel IH]; intros p; simpl;
    repeat case_match; intros Hr; simplify_eq; eauto; by eexists.
Qed.

Lemma makedirs_chain_raises ps : ∀ w e,
  fst (makedirs_chain ps w) = Raise e → is_OSError e ∨ e = ValueError.
Proof.
  induction ps as [|p ps IH]; intros w e; simpl; [done|].
  destruct (has_nul p); [intros [= <-]; by right|].
  destruct (stat (fs w) p) as [[q o]|e1] eqn:E.
  - repeat case_match; simpl; intros Hr; simplify_eq; eauto;
      left; by eexists.
  - simpl. intros [= <-]. left. by apply follow_raises in E.
Qed.

Lemma makedirs_raises p w e :
  fst (makedirs p w) = Raise e → is_OSError e ∨ e = ValueError.
Proof. apply makedirs_chain_raises. Qed.

Lemma write_text_raises p body w e :
  fst (write_text p body w) = Raise e → is_OSError e.
Proof.
  unfold write_text.
  destruct (stat (fs w) (here w p)) as [[q o]|e1] eqn:E.
  - destruct o as [[| |]|]; simpl; try done; try (intros [= <-]; by eexists).
    destruct (stat (fs w) (Path.parent q)) as [[q' o']|e2] eqn:E2.
    + repeat case_match; simpl; intros Hr; simplify_eq; by eexists.
    + simpl. intros [= <-]. by apply follow_raises in E2.
  - simpl. intros [= <-]. by apply follow_raises in E.
Qed.

Lemma py_format_raises t kw e :
  py_format t kw = Raise e → ∃ key, e = KeyError key.
Proof.
  induction t as [|[s|f] t IH]; simpl; [done|..].
  - destruct (py_format t kw); simpl; [done|]. intros [= <-]. by apply IH.
  - destruct (assoc f kw); [|intros [= <-]; by eexists].
    destruct (py_format t kw); simpl; [done|]. intros [= <-]. by apply IH.
Qed.

(** ** The stub writer, further *)

Lemma stub_target_ok cache id :
  ∃ path file ns coll,
    stub_target cache id = Ok (path, file, ns, coll)
    ∧ (is_Some ns ↔ 3 ≤ List.length (split dot id))
    ∧ (is_Some coll ↔ 3 ≤ List.length (split dot id)).
Proof.
  destruct (Nat.lt_ge_cases (List.length (split dot id)) 3) as [L|L].
  - do 4 eexists. split; [by apply stub_target_bare|].
    split; (split; [by intros [? ?]|lia]).
  - destruct (three_parts _ L) as (a & b & mid & z & E).
    do 4 eexists. split; [by apply (stub_target_qualified _ _ _ _ _ _ E)|].
    split; (split; [done|by eexists]).
Qed.

(** X7. The names of a stub are always computed: the indexing of the
    segments never raises [IndexError], whatever the identifier, and a
    namespace and a collection are set exactly for three segments or
    more. *)
Theorem stub_target_in_bounds cache id :
  ∃ path file ns coll,
    stub_target cache id = Ok (path, file, ns, coll)
    ∧ (is_Some ns ↔ 3 ≤ List.length (split dot id))
    ∧ (is_Some coll ↔ 3 ≤ List.length (split dot id)).
Proof. apply stub_target_ok. Qed.

Lemma stub_rejected env id w :
  module_name_ok id = false →
  fst (_make_module_stub env id w) = Raise (SystemExit (INVALID_CONFIG_RC env)).
Proof. intros H. unfold _make_module_stub. by rewrite H. Qed.

Lemma stub_accepted_raises env id w e :
  module_name_ok id = true →
  fst (_make_module_stub env id w) = Raise e →
  is_OSError e ∨ e = ValueError ∨ ∃ key, e = KeyError key.
Proof.
  intros Hok. unfold _make_module_stub. rewrite Hok.
  destruct (stub_target_ok (cache_dir (options env)) id)
    as (path & file & ns & coll & Ht & _).
  unfold bind at 1, lift at 1. rewrite Ht. unfold bind at 1.
  destruct (makedirs (Path.of_string path) w) as [[[]|e1] w1] eqn:Em.
  - unfold _write_module_stub, bind, lift.
    destruct (py_format _ _) as [body|e2] eqn:Ef.
    + intros H. left. by apply write_text_raises in H.
    + simpl. intros [= <-]. right. right. by apply py_format_raises in Ef.
  - simpl. intros [= <-].
    destruct (makedirs_raises (Path.of_string path) w e1) as [?|?];
      [by rewrite Em|by left|right; by left].
Qed.

(** X8. For an identifier of ASCII characters, [_make_module_stub] ends
    in [SystemExit] exactly when its test rejects the identifier: an
    accepted identifier never makes the process exit. *)
Theorem exit_exactly_when_rejected env id w :
  ascii_text id = true →
  ((∃ rc, fst (_make_module_stub env id w) = Raise (SystemExit rc))
   ↔ module_name_ok id = false).
Proof.
  intros _. split.
  - intros [rc H]. destruct (module_name_ok id) eqn:Hok; [|done].
    destruct (stub_accepted_raises env id w _ Hok H) as [[c ?]|[?|[k ?]]];
      done.
  - intros H. eexists. by apply stub_rejected.
Qed.

(** ** Mocked roles *)

Lemma word_token_dot_free w : word_token w = true → free dot w = true.
Proof.
  unfold word_token, free. intros [_ H]%andb_true_iff.
  revert H. apply all_chars_impl. intros c Hc.
  destruct (Ascii.eqb_spec c dot) as [->|]; [by vm_compute in Hc|done].
Qed.

Lemma role_name_re_spec r :
  is_Some (re_match role_name_re r) ↔
  ∃ w1 w2 w3 rest,
    r = w1 +:+ "." +:+ w2 +:+ "." +:+ w3 +:+ rest
    ∧ word_token w1 = true ∧ word_token w2 = true ∧ word_token w3 = true
    ∧ at_end rest = true.
Proof.
  rewrite re_match_spec. unfold role_name_re. split.
  - intros (s' & Hm).
    apply matches_seq in Hm as (t1 & (w1 & -> & H1)%matches_word1 & Hm).
    apply matches_seq in Hm as (t2 & ->%matches_str & Hm).
    apply matches_seq in Hm as (t3 & (w2 & -> & H2)%matches_word1 & Hm).
    apply matches_seq in Hm as (t4 & ->%matches_str & Hm).
    apply matches_seq in Hm as (t5 & (w3 & -> & H3)%matches_word1 & Hm).
    apply matches_eol in Hm as [-> He].
    by exists w1, w2, w3, t5.
  - intros (w1 & w2 & w3 & rest & -> & H1 & H2 & H3 & He). exists rest.
    apply matches_seq. eexists. split; [apply matches_word1; eauto|].
    apply matches_seq. eexists. split; [by apply matches_str|].
    apply matches_seq. eexists. split; [apply matches_word1; eauto|].
    apply matches_seq. eexists. split; [by apply matches_str|].
    apply matches_seq. eexists. split; [apply matches_word1; eauto|].
    by apply matches_eol.
Qed.

Lemma split_three w1 w2 w3 rest :
  word_token w1 = true → word_token w2 = true → word_token w3 = true →
  at_end rest = true →
  split dot (w1 +:+ "." +:+ w2 +:+ "." +:+ w3 +:+ rest)
  = [w1; w2; w3 +:+ rest].
Proof.
  intros H1 H2 H3 He.
  change ("." +:+ ?x) with (String dot x).
  rewrite (split_app dot w1) by by apply word_token_dot_free.
  change ("." +:+ ?x) with (String dot x).
  rewrite (split_app dot w2) by by apply word_token_dot_free.
  rewrite split_free; [done|].
  rewrite free_app, (word_token_dot_free _ H3).
  by apply at_end_spec in He as [-> | ->].
Qed.

Lemma matched_role_three_parts r :
  is_Some (re_match role_name_re r) → ∃ a b c, split dot r = [a; b; c].
Proof.
  intros (w1 & w2 & w3 & rest & -> & H1 & H2 & H3 & He)%role_name_re_spec.
  rewrite split_three by done. eauto.
Qed.

(** X9. Whenever the pattern for a role in a collection matches, the name
    splits at the dots into exactly three parts, so the unpacking into
    namespace, collection and role directory does not raise, and the
    directory made is the one built from these three parts. *)
Theorem mock_role_unpacks_three_parts env r w :
  is_Some (re_match role_name_re r) →
  ∃ namespace collection role_dir,
    split dot r = [namespace; collection; role_dir]
    ∧ mock_role env r w
      = makedirs
          (Path.of_string
             (cache_dir (options env) +:+ "/collections/ansible_collections/"
              +:+ namespace +:+ "/" +:+ collection +:+ "/roles/"
              +:+ role_dir +:+ "/")) w.
Proof.
  intros Hm. destruct (matched_role_three_parts r Hm) as (a & b & c & E).
  exists a, b, c. split; [done|].
  unfold mock_role, bind. destruct Hm as [x ->]. by rewrite E.
Qed.

Lemma mock_role_unpacks_three_parts_witness :
  ∃ namespace collection role_dir,
    split dot "acme.tools.web" = [namespace; collection; role_dir]
    ∧ mock_role example_env "acme.tools.web" fresh_world
      = makedirs
          (Path.of_string
             ("/cache" +:+ "/collections/ansible_collections/"
              +:+ namespace +:+ "/" +:+ collection +:+ "/roles/"
              +:+ role_dir +:+ "/")) fresh_world.
Proof.
  apply (mock_role_unpacks_three_parts example_env "acme.tools.web").
  by eexists.
Defined.

(** X10. A role name of three word tokens separated by dots gets the
    directory of the role in its collection. *)
Theorem mock_role_in_collection env w1 w2 w3 w :
  word_token w1 = true → word_token w2 = true → word_token w3 = true →
  mock_role env (w1 +:+ "." +:+ w2 +:+ "." +:+ w3) w
  = makedirs
      (Path.of_string
         (cache_dir (options env) +:+ "/collections/ansible_collections/"
          +:+ w1 +:+ "/" +:+ w2 +:+ "/roles/" +:+ w3 +:+ "/")) w.
Proof.
  intros H1 H2 H3. unfold mock_role, bind.
  assert (E : w1 +:+ "." +:+ w2 +:+ "." +:+ w3
              = w1 +:+ "." +:+ w2 +:+ "." +:+ w3 +:+ EmptyString)
    by by rewrite app_nil_right.
  destruct (re_match role_name_re _) as [x|] eqn:Hm.
  - rewrite E, split_three by done. by rewrite app_nil_right.
  - assert (is_Some (re_match role_name_re (w1 +:+ "." +:+ w2 +:+ "." +:+ w3)))
      as [? ?]; [|congruence].
    apply role_name_re_spec. by exists w1, w2, w3, EmptyString.
Qed.

Lemma mock_role_in_collection_witness :
  mock_role example_env "acme.tools.web" fresh_world
  = makedirs
      (Path.of_string "/cache/collections/ansible_collections/acme/tools/roles/web/")
      fresh_world.
Proof.
  apply (mock_role_in_collection example_env "acme" "tools" "web");
    reflexivity.
Defined.

(** X11. A role name that does not have exactly three dot-segments, for
    one a plain name or a name of two or of four segments, gets
    [<cache_dir>/roles/<name>]. *)
Theorem mock_role_plain env r w :
  List.length (split dot r) ≠ 3 →
  mock_role env r w
  = makedirs (Path.of_string (cache_dir (options env) +:+ "/roles/" +:+ r)) w.
Proof.
  intros H. unfold mock_role, bind.
  destruct (re_match role_name_re r) as [x|] eqn:Hm; [|done].
  destruct (matched_role_three_parts r) as (a & b & c & E);
    [by rewrite Hm|].
  by rewrite E in H.
Qed.

Lemma mock_role_plain_witness :
  mock_role example_env "a.b.c.d" fresh_world
  = makedirs (Path.of_string "/cache/roles/a.b.c.d") fresh_world.
Proof. apply (mock_role_plain example_env "a.b.c.d"). simpl. lia. Defined.

(** ** The self-collection link, further *)

Lemma path_exists_ok p w : ∃ b, path_exists p w = (Ok b, w).
Proof. by eexists. Qed.

(** X12. Without [galaxy.yml], with a document that is empty, or with a
    mapping whose [namespace] or [name] is missing or empty, the linking
    step returns and changes nothing. *)
Theorem link_step_skipped env w :
  fst (path_exists (Path.of_string "galaxy.yml") w) = Ok false
  ∨ (∃ y, yaml_from_file env "galaxy.yml" w = (Ok y, w)
        ∧ (yaml_truthy y = false
           ∨ ∃ m, y = YMap m
               ∧ py_truthy (dict_get m "namespace" PyNone)
                 && py_truthy (dict_get m "name" PyNone) = false)) →
  link_self_collection env w = (Ok tt, w).
Proof.
  intros H. unfold link_self_collection. unfold bind at 1.
  destruct (path_exists_ok (Path.of_string "galaxy.yml") w) as [b E].
  rewrite E in *. destruct b; simpl; [|done].
  destruct H as [H | (y & Hy & H)]; [done|].
  unfold bind at 1. rewrite Hy.
  destruct H as [Hf | (m & -> & Hf)]; [by rewrite Hf|].
  destruct (yaml_truthy (YMap m)); simpl; [|done].
  unfold bind, lift. simpl.
  apply andb_false_iff in Hf as [-> | ->]; simpl; [done|].
  by rewrite orb_true_r.
Qed.

Lemma link_step_skipped_witness :
  link_self_collection
    (mkEnv (options example_env) 2%Z [] (λ _, Ok (YMap {[ "name" := PyStr "tools" ]})))
    fresh_world
  = (Ok tt, fresh_world).
Proof.
  apply link_step_skipped. right.
  exists (YMap {[ "name" := PyStr "tools" ]}). split; [reflexivity|].
  right. eexists. split; reflexivity.
Defined.

(** X13. A [galaxy.yml] whose document is not a mapping and is not empty
    (a list, a text) is not skipped: the step raises [AttributeError],
    before it changes anything. *)
Theorem link_step_document_not_mapping env w :
  fst (path_exists (Path.of_string "galaxy.yml") w) = Ok true →
  yaml_from_file env "galaxy.yml" w = (Ok (YOther true), w) →
  link_self_collection env w = (Raise AttributeError, w).
Proof.
  intros He Hy. unfold link_self_collection. unfold bind at 1.
  destruct (path_exists_ok (Path.of_string "galaxy.yml") w) as [b E].
  rewrite E in *. simpl in He. injection He as ->. simpl.
  unfold bind at 1. by rewrite Hy.
Qed.

Lemma link_step_document_not_mapping_witness :
  link_self_collection
    (mkEnv (options example_env) 2%Z [] (λ _, Ok (YOther true))) fresh_world
  = (Raise AttributeError, fresh_world).
Proof. apply link_step_document_not_mapping; reflexivity. Defined.

Lemma makedirs_chain_cwd ps : ∀ w, cwd (snd (makedirs_chain ps w)) = cwd w.
Proof.
  induction ps as [|p ps IH]; intros w; simpl; [done|].
  repeat case_match; simpl; try done. by rewrite IH.
Qed.

Lemma path_mkdir_cwd p w : cwd (snd (path_mkdir p w)) = cwd w.
Proof.
  unfold path_mkdir. destruct (has_nul _); [done|].
  apply makedirs_chain_cwd.
Qed.

(** X14. Whenever the linking step returns for a manifest that names a
    namespace and a collection, the entry at the link path is a symbolic
    link to the absolute project directory. *)
Theorem link_step_result env w w' m ns c :
  fst (path_exists (Path.of_string "galaxy.yml") w) = Ok true →
  yaml_from_file env "galaxy.yml" w = (Ok (YMap m), w) →
  m !! "namespace" = Some (PyStr ns) → nonempty ns = true →
  m !! "name" = Some (PyStr c) → nonempty c = true →
  link_self_collection env w = (Ok tt, w') →
  let link_path :=
    Path.div
      (Path.of_string (cache_dir (options env)
                       +:+ "/collections/ansible_collections/" +:+ ns))
      (Path.of_string c) in
  let target :=
    Path.absolute (cwd w) (Path.of_string (project_dir (options env))) in
  fs w' !! Path.to_string (Path.absolute (cwd w) link_path)
  = Some (Link (Path.to_string target)).
Proof.
  intros He Hy Hn Nn Hc Nc. unfold link_self_collection. unfold bind at 1.
  destruct (path_exists_ok (Path.of_string "galaxy.yml") w) as [b E].
  rewrite E in *. simpl in He. injection He as ->. simpl.
  unfold bind at 1. rewrite Hy.
  assert (Tm : yaml_truthy (YMap m) = true).
  { simpl. apply negb_true_iff, bool_decide_eq_false. intros ->.
    by rewrite lookup_empty in Hn. }
  rewrite Tm. simpl. unfold bind at 1, lift at 1. simpl.
  unfold bind at 1, lift at 1. simpl.
  unfold dict_get. rewrite Hn, Hc. simpl. rewrite Nn, Nc. simpl.
  unfold bind at 1.
  destruct (path_mkdir _ w) as [[[]|e] w1] eqn:Em; [|done].
  assert (Cw : cwd w1 = cwd w).
  { match type of Em with path_mkdir ?p _ = _ =>
      pose proof (path_mkdir_cwd p w) as C end.
    by rewrite Em in C. }
  unfold bind at 1, lift at 1. cbv beta iota.
  unfold bind at 1. cbv beta iota. rewrite Cw.
  set (lp := Path.div _ (Path.of_string c)).
  set (tg := Path.absolute (cwd w) _).
  unfold bind at 1. unfold path_exists at 1. cbv beta iota.
  set (b := match stat (fs w1) (here w1 lp) with
            | Ok (_, Some _) => true
            | _ => false
            end).
  assert (R : ∃ res,
            (if negb b then ret true
             else let! old := os_readlink lp in
                  ret (py_ne (OStr old) (OPath tg))) w1 = (res, w1)
            ∧ (res = Ok true ∨ ∃ e, res = Raise e)).
  { destruct b; simpl; [|by eexists; split; [|left]].
    unfold bind, os_readlink, ret.
    repeat case_match; simplify_eq; eexists; (split; [done|]); eauto. }
  destruct R as (res & R & [-> | [e ->]]);
    unfold bind at 1; rewrite R; [|done].
  cbv beta iota.
  unfold bind at 1. unfold path_exists at 1. cbv beta iota. fold b.
  assert (U : ∃ res w2,
            (if b then path_unlink lp else ret tt) w1 = (res, w2)
            ∧ cwd w2 = cwd w).
  { destruct b; [|by exists (Ok tt), w1].
    unfold path_unlink. repeat case_match; do 2 eexists; split; done. }
  destruct U as (res & w2 & U & Cw2).
  unfold bind at 1. rewrite U.
  destruct res as [[]|e]; [|done].
  unfold path_symlink_to, here. rewrite Cw2.
  repeat case_match; intros Hr; simplify_eq; simpl; apply lookup_insert_eq.
Qed.

Lemma link_step_result_witness :
  fs (snd (link_self_collection example_env fresh_world))
    !! "/cache/collections/ansible_collections/acme/tools"
  = Some (Link "/work/tools").
Proof.
  apply (link_step_result example_env fresh_world
           (snd (link_self_collection example_env fresh_world))
           {[ "namespace" := PyStr "acme"; "name" := PyStr "tools" ]}
           "acme" "tools");
    vm_compute; reflexivity.
Defined.

(** ** The whole run *)

Lemma for_each_app {A} (f : A → M unit) l1 l2 w :
  for_each f (l1 ++ l2) w
  = match for_each f l1 w with
    | (Ok _, w1) => for_each f l2 w1
    | (Raise e, w1) => (Raise e, w1)
    end.
Proof.
  revert w. induction l1 as [|x l1 IH]; intros w; simpl; [done|].
  unfold bind. destruct (f x w) as [[[]|e] w0]; [apply IH|done].
Qed.

(** X15. For role and module names of ASCII characters, a rejected module
    name ends the run there: the roles and the modules before it have been
    made, the modules after it and the linking step are not reached, and
    nothing but the log entry is added. *)
Theorem rejected_module_ends_run env w w1 w2 good bad rest :
  forallb ascii_text (mock_roles (options env)) = true →
  for_each (mock_role env) (mock_roles (options env)) w = (Ok tt, w1) →
  mock_modules (options env) = good ++ bad :: rest →
  for_each (_make_module_stub env) good w1 = (Ok tt, w2) →
  ascii_text bad = true →
  module_name_ok bad = false →
  _perform_mockings env w
  = (Raise (SystemExit (INVALID_CONFIG_RC env)),
     mkWorld (cwd w2) (fs w2)
       (log w2
        ++ ["Config error: " +:+ bad +:+ " is not a valid module name."])
       (trace w2)).
Proof.
  intros _ Hr Hm Hg _ Hb. unfold _perform_mockings.
  unfold bind at 1. rewrite Hr. unfold bind at 1.
  rewrite Hm, for_each_app, Hg. simpl.
  unfold bind at 1. unfold _make_module_stub at 1. by rewrite Hb.
Qed.

Lemma rejected_module_ends_run_witness :
  fst (_perform_mockings
         (mkEnv (mkOptions "/cache" "/work/tools" ["web"]
                   ["foo"; "1bad!name"; "bar"])
            2%Z [Field "name"] (λ _, Ok collection_yaml))
         fresh_world)
  = Raise (SystemExit 2).
Proof.
  set (env := mkEnv (mkOptions "/cache" "/work/tools" ["web"]
                       ["foo"; "1bad!name"; "bar"])
                2%Z [Field "name"] (λ _, Ok collection_yaml)).
  rewrite (rejected_module_ends_run env fresh_world
             (snd (for_each (mock_role env) ["web"] fresh_world))
             (snd (for_each (_make_module_stub env) ["foo"]
                     (snd (for_each (mock_role env) ["web"] fresh_world))))
             ["foo"] "1bad!name" ["bar"]); reflexivity.
Defined.

(** ** Writing over a stub *)

Lemma stat_of_file f p old :
  lookup_path f p = Some (File old) → stat f p = Ok (p, Some (File old)).
Proof. intros H. unfold stat, MAXSYMLINKS. simpl. by rewrite H. Qed.

(** X16. When a regular file is already at the place of the stub,
    [_write_module_stub] replaces its content, whatever it was. *)
Theorem stub_is_overwritten env filename name ns coll w old body :
  lookup_path (fs w) (here w (Path.of_string filename)) = Some (File old) →
  py_format (ANSIBLE_MOCKED_MODULE env)
    [("name", PyStr name);
     ("collection", opt_val coll);
     ("namespace", opt_val ns)] = Ok body →
  let key := Path.to_string (here w (Path.of_string filename)) in
  _write_module_stub env filename name ns coll w
  = (Ok tt, change (<[key := File body]> (fs w)) (EvWrite key body) w).
Proof.
  intros Hl Hf key. unfold _write_module_stub, bind, lift. rewrite Hf.
  unfold write_text. by rewrite (stat_of_file _ _ _ Hl).
Qed.

Lemma stub_is_overwritten_witness :
  fs (snd (_write_module_stub example_env "/cache/old.py" "n" None None
             (mkWorld "/" {[ "/cache" := Dir; "/cache/old.py" := File "old" ]}
                [] [])))
    !! "/cache/old.py"
  = Some (File "module: n").
Proof.
  rewrite (stub_is_overwritten example_env "/cache/old.py" "n" None None
             (mkWorld "/" {[ "/cache" := Dir; "/cache/old.py" := File "old" ]}
                [] [])
             "old" "module: n"); reflexivity.
Defined.

(** ** Making directories twice *)

Lemma lookup_path_none f p :
  lookup_path f p = None → f !! Path.to_string p = None.
Proof. unfold lookup_path. by destruct (Path.parts p). Qed.

Lemma lookup_path_insert_ne f k v p :
  k ≠ Path.to_string p →
  lookup_path (<[k := v]> f) p = lookup_path f p.
Proof.
  intros H. unfold lookup_path. destruct (Path.parts p); [done|].
  by rewrite lookup_insert_ne.
Qed.

Lemma lookup_path_insert_dir f p :
  lookup_path (<[Path.to_string p := Dir]> f) p = Some Dir.
Proof.
  unfold lookup_path. destruct (Path.parts p); [done|].
  by rewrite lookup_insert_eq.
Qed.

(** A new directory does not change where a lookup that found a directory
    ends. *)
Lemma follow_insert_dir fuel f k : ∀ p q,
  f !! k = None →
  follow fuel f p = Ok (q, Some Dir) →
  follow fuel (<[k := Dir]> f) p = Ok (q, Some Dir).
Proof.
  induction fuel as [|fuel IH]; intros p q Hk; simpl;
    (destruct (decide (k = Path.to_string p)) as [->|Hne];
     [| rewrite lookup_path_insert_ne by done;
        destruct (lookup_path f p) as [[| |]|]; try done; by apply IH ]);
    (destruct (lookup_path f p) as [[| |]|] eqn:L; try done;
     first [ intros [= <-]; by rewrite lookup_path_insert_dir
           | unfold lookup_path in L; destruct (Path.parts p); congruence ]).
Qed.

Lemma stat_eq f p : stat f p = follow MAXSYMLINKS f p.
Proof. reflexivity. Qed.

Lemma makedirs_chain_cons p ps w :
  makedirs_chain (p :: ps) w
  = if has_nul p then (Raise ValueError, w) else
    match stat (fs w) p with
    | Raise e => (Raise e, w)
    | Ok (_, Some Dir) => makedirs_chain ps w
    | Ok (_, Some _) =>
        (Raise (OSError match ps with [] => EEXIST | _ => ENOTDIR end), w)
    | Ok (_, None) =>
        match lookup_path (fs w) p with
        | None =>
            let k := Path.to_string p in
            makedirs_chain ps (change (<[k := Dir]> (fs w)) (EvMkdir k) w)
        | Some _ =>
            (Raise (OSError match ps with [] => EEXIST | _ => ENOENT end), w)
        end
    end.
Proof. reflexivity. Qed.

Lemma stat_new_dir f p : stat (<[Path.to_string p := Dir]> f) p = Ok (p, Some Dir).
Proof.
  rewrite stat_eq. unfold MAXSYMLINKS. cbn [follow].
  by rewrite lookup_path_insert_dir.
Qed.

Opaque stat.

Lemma makedirs_chain_keeps_dirs ps : ∀ w w' p q,
  makedirs_chain ps w = (Ok tt, w') →
  stat (fs w) p = Ok (q, Some Dir) → stat (fs w') p = Ok (q, Some Dir).
Proof.
  induction ps as [|p0 ps IH]; intros w w' p q.
  - cbn [makedirs_chain]. by intros [= <-].
  - rewrite makedirs_chain_cons. destruct (has_nul p0); [intros [=]|].
    destruct (stat (fs w) p0) as [[q0 [[| |]|]]|e];
      try (intros [=]; fail); [apply IH|].
    destruct (lookup_path (fs w) p0) eqn:L; [intros [=]|].
    intros Hrun Hs. apply (IH _ _ _ _ Hrun). cbn [fs change].
    rewrite stat_eq in *.
    apply follow_insert_dir; [by apply lookup_path_none|exact Hs].
Qed.

Lemma makedirs_chain_makes_dirs ps : ∀ w w',
  makedirs_chain ps w = (Ok tt, w') →
  Forall (λ p, has_nul p = false
               ∧ ∃ q, stat (fs w') p = Ok (q, Some Dir)) ps.
Proof.
  induction ps as [|p0 ps IH]; intros w w'; [by constructor|].
  rewrite makedirs_chain_cons.
  destruct (has_nul p0) eqn:N; [intros [=]|].
  destruct (stat (fs w) p0) as [[q0 [[| |]|]]|e] eqn:S0;
    try (intros [=]; fail).
  - intros Hrun. constructor; [|by apply (IH w)].
    split; [done|]. exists q0. by apply (makedirs_chain_keeps_dirs ps w).
  - destruct (lookup_path (fs w) p0) eqn:L; [intros [=]|].
    intros Hrun. constructor; [|by apply (IH _ _ Hrun)].
    split; [done|].
    exists p0. apply (makedirs_chain_keeps_dirs ps _ _ _ _ Hrun).
    cbn [fs change]. apply stat_new_dir.
Qed.

Lemma makedirs_chain_nothing_to_do ps w :
  Forall (λ p, has_nul p = false
               ∧ ∃ q, stat (fs w) p = Ok (q, Some Dir)) ps →
  makedirs_chain ps w = (Ok tt, w).
Proof.
  induction 1 as [|p ps [N [q Hq]] _ IH]; [done|].
  rewrite makedirs_chain_cons. by rewrite N, Hq.
Qed.

Transparent stat.

Lemma makedirs_twice p w w' :
  makedirs p w = (Ok tt, w') → makedirs p w' = (Ok tt, w').
Proof.
  unfold makedirs. intros H.
  pose proof (makedirs_chain_cwd (Path.chain (here w p)) w) as C.
  rewrite H in C. cbn [snd] in C. unfold here. rewrite C.
  apply makedirs_chain_nothing_to_do.
  by apply (makedirs_chain_makes_dirs _ w).
Qed.

(** X17. Mocking a role again changes nothing: after a run of [mock_role]
    that returned, a second run returns and leaves the file system, the log
    and the record of changes as they are. *)
Theorem mock_role_again env r w w' :
  mock_role env r w = (Ok tt, w') → mock_role env r w' = (Ok tt, w').
Proof.
  unfold mock_role, bind.
  destruct (re_match role_name_re r) as [x|].
  - destruct (split dot r) as [|a [|b [|c [|d l]]]]; simpl; try done.
    apply makedirs_twice.
  - simpl. apply makedirs_twice.
Qed.

Lemma mock_role_again_witness :
  mock_role example_env "acme.tools.web"
    (snd (mock_role example_env "acme.tools.web" fresh_world))
  = (Ok tt, snd (mock_role example_env "acme.tools.web" fresh_world)).
Proof.
  apply (mock_role_again example_env "acme.tools.web" fresh_world).
  vm_compute. reflexivity.
Defined.

(** ** The directory of a stub *)

Lemma split_snoc sep a x :
  free sep x = true →
  split sep (a +:+ String sep x) = (split sep a ++ [x])%list.
Proof.
  intros F. induction a as [|c a IH].
  - rewrite app_nil_left. simpl. by rewrite Ascii.eqb_refl, split_free.
  - rewrite app_cons. simpl. destruct (Ascii.eqb c sep).
    + by rewrite IH.
    + rewrite IH. destruct (split_cons_inv sep a) as (p & ps & ->). done.
Qed.

Lemma root_of_app p q :
  3 ≤ String.length p → Path.root_of (p +:+ q) = Path.root_of p.
Proof.
  destruct p as [|a [|b [|c p]]]; simpl; try lia. done.
Qed.

Lemma length_app_str s t :
  String.length (s +:+ t) = String.length s + String.length t.
Proof. induction s as [|c s IH]; [done|]. rewrite app_cons. simpl. lia. Qed.

Lemma parent_of_string p x :
  3 ≤ String.length p → free slash x = true → Path.keep x = true →
  Path.parent (Path.of_string (p +:+ "/" +:+ x)) = Path.of_string p.
Proof.
  intros L F K. unfold Path.parent, Path.of_string. simpl Path.root.
  simpl Path.parts.
  rewrite root_of_app by done.
  change ("/" +:+ x) with (String slash x).
  rewrite split_snoc by done.
  rewrite List.filter_app. simpl. rewrite K.
  by rewrite removelast_last.
Qed.

Lemma keep_py s : Path.keep (s +:+ ".py") = true.
Proof.
  unfold Path.keep. destruct s as [|a s]; [done|].
  rewrite app_cons. simpl.
  destruct s; simpl; by destruct (Ascii.eqb a ".").
Qed.

(** X18. For an accepted identifier, the directory that is created is the
    directory of the stub file: the parent of [module_file] as a path is
    [path]. *)
Theorem stub_directory_is_parent cache id path file ns coll :
  module_name_ok id = true →
  stub_target cache id = Ok (path, file, ns, coll) →
  Path.parent (Path.of_string file) = Path.of_string path.
Proof.
  intros Hok.
  pose proof (accepted_slash_free _ Hok) as Fid.
  destruct (Nat.lt_ge_cases (List.length (split dot id)) 3) as [L|L].
  - rewrite (stub_target_bare _ _ L). intros [= <- <- _ _].
    replace (cache +:+ "/modules/" +:+ id +:+ ".py")
      with ((cache +:+ "/modules") +:+ "/" +:+ (id +:+ ".py"))
      by (by rewrite !app_assoc_str).
    apply parent_of_string.
    + rewrite length_app_str. simpl. lia.
    + by rewrite free_app, Fid.
    + apply keep_py.
  - destruct (three_parts _ L) as (a & b & mid & z & E).
    rewrite (stub_target_qualified _ _ _ _ _ _ E). intros [= <- <- _ _].
    apply parent_of_string.
    + rewrite length_app_str. simpl. lia.
    + pose proof (split_parts_free slash dot _ Fid) as F.
      rewrite E in F. simpl in F.
      apply andb_true_iff in F as [_ [_ F]%andb_true_iff].
      rewrite forallb_app in F. apply andb_true_iff in F as [_ F].
      simpl in F. rewrite andb_true_r in F. by rewrite free_app, F.
    + apply keep_py.
Qed.

Lemma stub_directory_is_parent_witness :
  Path.parent
    (Path.of_string
       "/cache/collections/ansible_collections/ns/coll/plugins/modules//mod.py")
  = Path.of_string
      "/cache/collections/ansible_collections/ns/coll/plugins/modules/".
Proof.
  apply (stub_directory_is_parent "/cache" "ns.coll.mod" _ _
           (Some "ns") (Some "coll")); reflexivity.
Defined.

(** ** Writing a stub twice *)

Lemma follow_end fuel f : ∀ p q o,
  follow fuel f p = Ok (q, o) → lookup_path f q = o.
Proof.
  induction fuel as [|fuel IH]; intros p q o; cbn [follow];
    destruct (lookup_path f p) as [[| |]|] eqn:L;
    try (intros [= <- <-]; exact L); try (intros [=]; fail).
  apply IH.
Qed.

(** A file put where there was none, or a file, does not change where a
    lookup that found a directory ends. *)
Lemma follow_insert_keeps_dir fuel f k v : ∀ p q,
  (f !! k = None ∨ ∃ c, f !! k = Some (File c)) →
  follow fuel f p = Ok (q, Some Dir) →
  follow fuel (<[k := v]> f) p = Ok (q, Some Dir).
Proof.
  induction fuel as [|fuel IH]; intros p q Hk; cbn [follow];
    (destruct (decide (k = Path.to_string p)) as [->|Hne];
     [| rewrite lookup_path_insert_ne by done;
        destruct (lookup_path f p) as [[| |]|]; try done; by apply IH ]);
    unfold lookup_path; (destruct (Path.parts p); [done|]);
    rewrite lookup_insert_eq;
    destruct Hk as [-> | [c ->]]; intros [=].
Qed.

Lemma lookup_path_file_key f q o :
  lookup_path f q = o → (o = None ∨ ∃ c, o = Some (File c)) →
  f !! Path.to_string q = o
  ∧ ∀ g, lookup_path g q = g !! Path.to_string q.
Proof.
  unfold lookup_path. intros H Ho. destruct (Path.parts q).
  - destruct Ho as [-> | [c ->]]; discriminate H.
  - done.
Qed.

(** Writing at the end of a lookup: the same lookup then finds the
    file. *)
Lemma follow_insert_file fuel f b : ∀ p q o,
  follow fuel f p = Ok (q, o) →
  (o = None ∨ ∃ c, o = Some (File c)) →
  follow fuel (<[Path.to_string q := File b]> f) p = Ok (q, Some (File b)).
Proof.
  induction fuel as [|fuel IH]; intros p q o Hf Ho;
    pose proof (follow_end _ _ _ _ _ Hf) as He;
    destruct (lookup_path_file_key _ _ _ He Ho) as [Hq Hg];
    cbn [follow] in *.
  - destruct (decide (Path.to_string q = Path.to_string p)) as [E|Hne].
    + destruct (lookup_path f p) as [[| |]|] eqn:L;
        try discriminate Hf; injection Hf as <- <-;
        rewrite Hg, lookup_insert_eq; try done;
        destruct Ho as [? | [? ?]]; congruence.
    + rewrite lookup_path_insert_ne by done.
      destruct (lookup_path f p) as [[| |]|];
        try discriminate Hf; injection Hf as <- _; congruence.
  - destruct (decide (Path.to_string q = Path.to_string p)) as [E|Hne].
    + destruct (lookup_path f p) as [[| |]|] eqn:L.
      * injection Hf as <- <-. destruct Ho as [? | [? ?]]; congruence.
      * injection Hf as <- <-. by rewrite Hg, lookup_insert_eq.
      * exfalso. unfold lookup_path in L.
        destruct (Path.parts p); [done|].
        rewrite <- E, Hq in L. destruct Ho as [? | [? ?]]; congruence.
      * injection Hf as <- <-. by rewrite Hg, lookup_insert_eq.
    + rewrite lookup_path_insert_ne by done.
      destruct (lookup_path f p) as [[| |]|];
        first [ by apply (IH _ _ o) | injection Hf as <- _; congruence ].
Qed.

Lemma follow_not_link fuel f : ∀ p q t,
  follow fuel f p ≠ Ok (q, Some (Link t)).
Proof.
  induction fuel as [|fuel IH]; intros p q t; cbn [follow];
    destruct (lookup_path f p) as [[| |]|]; try done; apply IH.
Qed.

Opaque stat.

Lemma write_text_ok p body w w' :
  write_text p body w = (Ok tt, w') →
  ∃ q o,
    stat (fs w) (here w p) = Ok (q, o)
    ∧ (o = None ∨ ∃ c, o = Some (File c))
    ∧ w' = change (<[Path.to_string q := File body]> (fs w))
             (EvWrite (Path.to_string q) body) w.
Proof.
  unfold write_text.
  destruct (stat (fs w) (here w p)) as [[q [[|c|t]|]]|e] eqn:S;
    try (intros [=]; fail).
  - intros [= <-]. exists q, (Some (File c)). eauto.
  - rewrite stat_eq in S. by apply follow_not_link in S.
  - destruct (stat (fs w) (Path.parent q)) as [[q' [[| |]|]]|e];
      try (intros [=]; fail).
    intros [= <-]. exists q, None. eauto.
Qed.

Lemma write_text_again p body w w' :
  write_text p body w = (Ok tt, w') →
  ∃ w'', write_text p body w' = (Ok tt, w'')
         ∧ fs w'' = fs w' ∧ log w'' = log w'.
Proof.
  intros (q & o & S & Ho & ->)%write_text_ok.
  unfold write_text, here in *. cbn [fs cwd change].
  rewrite stat_eq in *.
  rewrite (follow_insert_file _ _ body _ _ _ S Ho).
  eexists. split; [done|]. cbn [fs log change].
  by rewrite insert_insert_eq.
Qed.

Lemma makedirs_still_done p w w1 w2 :
  makedirs p w = (Ok tt, w1) → cwd w2 = cwd w →
  (∀ p q, stat (fs w1) p = Ok (q, Some Dir) →
          stat (fs w2) p = Ok (q, Some Dir)) →
  makedirs p w2 = (Ok tt, w2).
Proof.
  unfold makedirs, here. intros H C K. rewrite C.
  apply makedirs_chain_nothing_to_do.
  eapply Forall_impl; [by apply (makedirs_chain_makes_dirs _ w)|].
  intros x [N [q Hq]]. split; [done|]. exists q. by apply K.
Qed.

Lemma stub_accepted_run env id path file ns coll :
  module_name_ok id = true →
  stub_target (cache_dir (options env)) id = Ok (path, file, ns, coll) →
  ∀ w,
    _make_module_stub env id w
    = match makedirs (Path.of_string path) w with
      | (Ok _, w1) =>
          match py_format (ANSIBLE_MOCKED_MODULE env)
                  [("name", PyStr file);
                   ("collection", opt_val coll);
                   ("namespace", opt_val ns)] with
          | Ok body => write_text (Path.of_string file) body w1
          | Raise e => (Raise e, w1)
          end
      | (Raise e, w1) => (Raise e, w1)
      end.
Proof.
  intros Hok Ht w. unfold _make_module_stub. rewrite Hok.
  unfold bind at 1, lift at 1. rewrite Ht. unfold bind at 1.
  destruct (makedirs (Path.of_string path) w) as [[[]|e] w1]; [|done].
  unfold _write_module_stub, bind, lift.
  by destruct (py_format _ _).
Qed.

(** X19. Writing a stub again changes no file: after a run of
    [_make_module_stub] that returned, a second run returns as well and
    leaves the file system and the log as they were. *)
Theorem stub_written_again env id w w' :
  _make_module_stub env id w = (Ok tt, w') →
  ∃ w'', _make_module_stub env id w' = (Ok tt, w'')
         ∧ fs w'' = fs w' ∧ log w'' = log w'.
Proof.
  destruct (module_name_ok id) eqn:Hok;
    [|unfold _make_module_stub; rewrite Hok; intros [=]].
  destruct (stub_target_ok (cache_dir (options env)) id)
    as (path & file & ns & coll & Ht & _).
  rewrite !(stub_accepted_run env id _ _ _ _ Hok Ht).
  destruct (makedirs (Path.of_string path) w) as [[[]|e] w1] eqn:Em;
    [|intros [=]].
  destruct (py_format _ _) as [body|e]; [|intros [=]].
  intros Hw.
  destruct (write_text_ok _ _ _ _ Hw) as (q & o & S & Ho & E).
  assert (Cw1 : cwd w1 = cwd w).
  { unfold makedirs in Em.
    match type of Em with makedirs_chain ?ps _ = _ =>
      pose proof (makedirs_chain_cwd ps w) as C end.
    by rewrite Em in C. }
  rewrite (makedirs_still_done _ _ _ w' Em).
  - cbv beta iota. by apply (write_text_again _ _ w1).
  - subst w'. cbn [cwd change]. done.
  - subst w'. cbn [fs change]. intros x y Hx. rewrite stat_eq in *.
    apply follow_insert_keeps_dir; [|done].
    pose proof (follow_end _ _ _ _ _ S) as He.
    destruct (lookup_path_file_key _ _ _ He Ho) as [Hq _].
    rewrite Hq. done.
Qed.

Transparent stat.

Lemma stub_written_again_witness :
  ∃ w'',
    _make_module_stub example_env "ns.coll.mod"
      (snd (_make_module_stub example_env "ns.coll.mod" fresh_world))
    = (Ok tt, w'')
    ∧ fs w'' = fs (snd (_make_module_stub example_env "ns.coll.mod" fresh_world))
    ∧ log w'' = log (snd (_make_module_stub example_env "ns.coll.mod" fresh_world)).
Proof.
  apply (stub_written_again example_env "ns.coll.mod" fresh_world).
  vm_compute. reflexivity.
Defined.

(** ** A newline at the end, an author as namespace *)

Lemma accepted_shape_no_newline s :
  accepted_shape s → free newline s = true.
Proof.
  assert (W : ∀ w, word_token w = true → free newline w = true).
  { unfold word_token, free. intros w [_ H]%andb_true_iff.
    revert H. apply all_chars_impl. intros c Hc.
    destruct (Ascii.eqb_spec c newline) as [->|]; [by vm_compute in Hc|done]. }
  intros [Hw | (w1 & w2 & t & -> & H1 & H2 & Ht)]; [by apply W|].
  rewrite !free_app, (W _ H1), (W _ H2). simpl.
  unfold dotted_tail, free in *. apply andb_true_iff in Ht as [_ Ht].
  revert Ht. apply all_chars_impl. intros c [E|E]%orb_true_iff.
  - apply Ascii.eqb_eq in E as ->. by vm_compute.
  - destruct (Ascii.eqb_spec c newline) as [->|]; [by vm_compute in E|done].
Qed.

Lemma free_not_last c s : free c (s +:+ String c EmptyString) = false.
Proof.
  rewrite free_app. unfold free at 2. simpl.
  rewrite Ascii.eqb_refl. simpl. apply andb_false_r.
Qed.

(** X20. One newline at the end is let through by the test: a text of
    ASCII characters followed by a newline is accepted exactly when the text
    itself has the accepted shape. *)
Theorem final_newline_is_accepted s :
  ascii_text s = true →
  (module_name_ok (s +:+ String newline EmptyString) = true
   ↔ accepted_shape s).
Proof.
  intros _. rewrite module_name_ok_spec. split.
  - intros (body & rest & E & [-> | ->]%at_end_spec & Hs).
    + rewrite app_nil_right in E. subst body.
      apply accepted_shape_no_newline in Hs.
      by rewrite free_not_last in Hs.
    + apply app_inv_tail_str in E. by subst.
  - intros Hs. by exists s, (String newline EmptyString).
Qed.

(** X21. With no namespace, an author that is text without a space is
    the namespace: with a role name that is not empty the result is author,
    dot, role name. *)
Theorem fqrn_author_as_namespace (m : gmap string pyval) cwd author name :
  empty_or_absent m "namespace" →
  m !! "author" = Some (PyStr author) → free " " author = true →
  m !! "role_name" = Some (PyStr name) → nonempty name = true →
  _get_role_fqrn cwd m = Ok (author +:+ "." +:+ name).
Proof.
  intros Hn Ha Fa Hr Nr.
  assert (R : resolved_namespace m = PyStr author).
  { unfold resolved_namespace.
    rewrite (dict_get_empty_or_absent _ _ Hn). simpl.
    unfold dict_get. by rewrite Ha. }
  unfold _get_role_fqrn, _get_galaxy_role_name.
  rewrite (role_ns_text m author R).
  destruct (re_match author_name_re author) as [r|] eqn:Hm.
  - destruct (not_author_shape_no_space _ Fa).
    apply author_name_re_spec. by rewrite Hm.
  - simpl. unfold dict_get. rewrite Hr. simpl. destruct name; [done|].
    simpl. by rewrite app_assoc_str.
Qed.

Lemma fqrn_author_as_namespace_witness :
  _get_role_fqrn "/anywhere"
    {[ "author" := PyStr "jdoe"; "role_name" := PyStr "web" ]}
  = Ok "jdoe.web".
Proof.
  apply (fqrn_author_as_namespace _ "/anywhere" "jdoe" "web");
    first [ reflexivity | by left ].
Defined.

(** ** The further properties at concrete inputs *)

Lemma stub_target_in_bounds_witness :
  ∃ path file ns coll,
    stub_target "/cache" "a.b" = Ok (path, file, ns, coll)
    ∧ (is_Some ns ↔ 3 ≤ List.length (split dot "a.b"))
    ∧ (is_Some coll ↔ 3 ≤ List.length (split dot "a.b")).
Proof. apply (stub_target_in_bounds "/cache" "a.b"). Defined.

Lemma exit_exactly_when_rejected_witness :
  ∃ rc,
    fst (_make_module_stub example_env "a.b" fresh_world)
    = Raise (SystemExit rc).
Proof.
  apply (exit_exactly_when_rejected example_env "a.b" fresh_world);
    reflexivity.
Defined.

Lemma final_newline_is_accepted_witness :
  module_name_ok ("foo" +:+ String newline EmptyString) = true.
Proof.
  apply (final_newline_is_accepted "foo"); [reflexivity|by left].
Defined.

(** A role name with a NUL character: [os.makedirs] makes the directories
    above it and raises [ValueError]. *)
Example makedirs_refuses_nul :
  let run := mock_role example_env (String "a" (String nul "b")) fresh_world in
  fst run = Raise ValueError
  ∧ trace (snd run) = [EvMkdir "/cache/roles"].
Proof. vm_compute. split; reflexivity. Qed.
